(** * vehicle/mercedes/identity.go: the OAuth2 login handlers of the Mercedes identity

    A shallow embedding of [Identity] (constructor, the invalidation callback
    and the three HTTP handlers) together with the parts of Go's [fmt],
    [net/url], [net/http] and of [golang.org/x/oauth2] that the handlers call.

    Conventions:
    - a Go [error] is kept as its [Error()] text, [nil] is [None];
    - a [map[string][]string] ([url.Values], [http.Header]) is a [gmap];
    - the handlers run in a small monad over the state they touch: the
      [Identity], the random source, the response writer and a trace that
      records, in program order, every call with an effect outside the
      handler (validation, exchange, Apply, channel sends, logging);
    - a channel send never completes on the nil channel (Go specification)
      and completes on another channel exactly when its subscriber takes the
      value; a run that stops at a send is [Blocked]. *)

From Stdlib Require Import ZArith String Ascii List Lia.
From Stdlib Require Import Strings.Byte.
From stdpp Require Import base option list strings gmap sorting.

#[global] Instance byte_eq_decision : EqDecision byte := byte_eq_dec.

(** A Go [error], by its text. *)
Definition error : Type := string.

(** [url.Values] and [http.Header]. *)
Abbreviation Values := (gmap string (list string)).

(** ** Strings *)

Module Str.

(** [strings.Contains(t, s)]: [s] occurs in [t]. *)
Definition contains (t s : string) : Prop :=
  ∃ pre post, t = pre +:+ s +:+ post.

(** [strings.Split(s, sep)] for a one-byte separator. *)
Fixpoint split (sep : ascii) (s : string) : list string :=
  match s with
  | EmptyString => [EmptyString]
  | String c r =>
      if Ascii.eqb c sep then EmptyString :: split sep r
      else match split sep r with
           | x :: xs => String c x :: xs
           | [] => [String c EmptyString]
           end
  end.

(** [strings.Cut(s, sep)]: the text before the first [sep], and the text
    after it when there is one. *)
Fixpoint cut (sep : ascii) (s : string) : string * option string :=
  match s with
  | EmptyString => (EmptyString, None)
  | String c r =>
      if Ascii.eqb c sep then (EmptyString, Some r)
      else let '(b, a) := cut sep r in (String c b, a)
  end.

Fixpoint has_char (c : ascii) (s : string) : bool :=
  match s with
  | EmptyString => false
  | String d r => Ascii.eqb c d || has_char c r
  end.

End Str.

(** ** fmt *)

Module Fmt.

(** [%s] and [%v] of a [[]string]: the elements between brackets. *)
Definition strings (vs : list string) : string :=
  "[" +:+ String.concat " " vs +:+ "]".

Definition key_le (a b : string * list string) : Prop :=
  String.leb a.1 b.1 = true.

#[global] Instance key_le_dec a b : Decision (key_le a b).
Proof. unfold key_le. apply _. Defined.

(** fmt prints a map with its keys sorted. *)
Definition entries (m : Values) : list (string * list string) :=
  merge_sort key_le (map_to_list m).

Definition entry (kv : string * list string) : string :=
  kv.1 +:+ ":" +:+ strings kv.2.

(** [%v] of a [url.Values]. *)
Definition values (m : Values) : string :=
  "map[" +:+ String.concat " " (entry <$> entries m) +:+ "]".

(** [fmt.Sprintln(a, b)]: operands separated by a space, then a newline. *)
Definition sprintln2 (a b : string) : string :=
  a +:+ " " +:+ b +:+ String "010" EmptyString.

End Fmt.

(** ** net/url *)

Module Url.

Definition is_digit (c : ascii) : bool :=
  let n := nat_of_ascii c in (48 <=? n)%nat && (n <=? 57)%nat.
Definition is_lower (c : ascii) : bool :=
  let n := nat_of_ascii c in (97 <=? n)%nat && (n <=? 122)%nat.
Definition is_upper (c : ascii) : bool :=
  let n := nat_of_ascii c in (65 <=? n)%nat && (n <=? 90)%nat.

Definition ishex (c : ascii) : bool :=
  let n := nat_of_ascii c in
  is_digit c || ((97 <=? n)%nat && (n <=? 102)%nat)
             || ((65 <=? n)%nat && (n <=? 70)%nat).

Definition unhex (c : ascii) : nat :=
  let n := nat_of_ascii c in
  if is_digit c then n - 48
  else if (97 <=? n)%nat && (n <=? 102)%nat then n - 97 + 10
  else if (65 <=? n)%nat && (n <=? 70)%nat then n - 65 + 10
  else 0.

(** [shouldEscape(c, encodeQueryComponent)]. *)
Definition shouldEscape (c : ascii) : bool :=
  negb (is_digit c || is_lower c || is_upper c
        || Str.has_char c "-_.~").

Definition upperhex (n : nat) : ascii :=
  nth n (list_ascii_of_string "0123456789ABCDEF") "0"%char.

(** [url.QueryEscape]. *)
Fixpoint QueryEscape (s : string) : string :=
  match s with
  | EmptyString => EmptyString
  | String c r =>
      if Ascii.eqb c " " then String "+" (QueryEscape r)
      else if shouldEscape c then
        String "%" (String (upperhex (nat_of_ascii c / 16))
                      (String (upperhex (nat_of_ascii c mod 16)) (QueryEscape r)))
      else String c (QueryEscape r)
  end.

(** [url.QueryUnescape]; [None] is an [EscapeError]. *)
Fixpoint QueryUnescape (s : string) : option string :=
  match s with
  | EmptyString => Some EmptyString
  | String c r =>
      if Ascii.eqb c "%" then
        match r with
        | String a (String b r') =>
            if ishex a && ishex b then
              String (ascii_of_nat (unhex a * 16 + unhex b)) <$> QueryUnescape r'
            else None
        | _ => None
        end
      else if Ascii.eqb c "+" then String " " <$> QueryUnescape r
      else String c <$> QueryUnescape r
  end.

(** One round of the loop of [parseQuery] on the segment [seg]. *)
Definition parse_segment (seg : string) (acc : Values * option error)
  : Values * option error :=
  let '(m, err) := acc in
  if Str.has_char ";" seg then
    (m, Some "invalid semicolon separator in query")
  else if String.eqb seg EmptyString then (m, err)
  else
    let '(k, v) := Str.cut "=" seg in
    match QueryUnescape k with
    | None => (m, Some (default "invalid URL escape" err))
    | Some key =>
        match QueryUnescape (default EmptyString v) with
        | None => (m, Some (default "invalid URL escape" err))
        | Some value => (<[key := default [] (m !! key) ++ [value]]> m, err)
        end
    end.

(** [url.ParseQuery] (Go 1.17 and later, where a semicolon is an error):
    all the valid parameters, and the first error. *)
Definition ParseQuery (query : string) : Values * option error :=
  fold_left (λ acc seg, parse_segment seg acc) (Str.split "&" query) (∅, None).

Definition pairs (kv : string * list string) : list string :=
  (λ v, QueryEscape kv.1 +:+ "=" +:+ QueryEscape v) <$> kv.2.

(** The [key=value] pieces of [Values.Encode], keys sorted. *)
Definition segments (m : Values) : list string :=
  Fmt.entries m ≫= pairs.

(** [Values.Encode]. *)
Definition Encode (m : Values) : string := String.concat "&" (segments m).

(** What the rounds of [parseQuery] on the pieces of one parameter add to
    the map. *)
Definition put (acc : Values) (kv : string * list string) : Values :=
  match kv.2 with
  | [] => acc
  | _ => <[kv.1 := default [] (acc !! kv.1) ++ kv.2]> acc
  end.

End Url.

(** ** net/http *)

Module Http.

Definition StatusOK : nat := 200.
Definition StatusFound : nat := 302.

(** What the handler has sent through its [http.ResponseWriter]:
    [status] is [None] until the header is written. *)
Record ResponseWriter := {
  status : option nat;
  header : Values;
  body : string
}.

Definition fresh : ResponseWriter :=
  {| status := None; header := ∅; body := EmptyString |}.

(** [w.WriteHeader(code)]; a second call does not change the status. *)
Definition WriteHeader (code : nat) (w : ResponseWriter) : ResponseWriter :=
  match status w with
  | Some _ => w
  | None => {| status := Some code; header := header w; body := body w |}
  end.

(** [w.Write(b)]: writes the header with 200 when it is not yet written. *)
Definition Write (b : string) (w : ResponseWriter) : ResponseWriter :=
  let w' := WriteHeader StatusOK w in
  {| status := status w'; header := header w'; body := body w' +:+ b |}.

Definition SetHeader (k v : string) (w : ResponseWriter) : ResponseWriter :=
  {| status := status w; header := <[k := [v]]> (header w); body := body w |}.

Definition dquote : string := String "034" EmptyString.

Fixpoint htmlEscape (s : string) : string :=
  match s with
  | EmptyString => EmptyString
  | String c r =>
      (if Ascii.eqb c "&" then "&amp;"
       else if Ascii.eqb c "<" then "&lt;"
       else if Ascii.eqb c ">" then "&gt;"
       else if Ascii.eqb c "034" then "&#34;"
       else if Ascii.eqb c "'" then "&#39;"
       else String c EmptyString) +:+ htmlEscape r
  end.

(** [http.Redirect(w, r, url, code)] for a request of method [meth], where
    [location] is the target as net/http has resolved it against the
    request path. *)
Definition Redirect (meth location : string) (code : nat) (w : ResponseWriter)
  : ResponseWriter :=
  let hadCT := bool_decide (is_Some (header w !! "Content-Type")) in
  let w1 := SetHeader "Location" location w in
  let w2 := if negb hadCT && (String.eqb meth "GET" || String.eqb meth "HEAD")
            then SetHeader "Content-Type" "text/html; charset=utf-8" w1 else w1 in
  let w3 := WriteHeader code w2 in
  if negb hadCT && String.eqb meth "GET"
  then Write ("<a href=" +:+ dquote +:+ htmlEscape location +:+ dquote +:+ ">Found</a>."
              +:+ String "010" (String "010" EmptyString)) w3
  else w3.

(** The status the client sees: 200 when the handler never wrote one. *)
Definition sent_status (w : ResponseWriter) : nat := default StatusOK (status w).

Definition location (w : ResponseWriter) : option (list string) :=
  header w !! "Location".

(** The part of [http.Request] the handlers read. *)
Record Request := { Method : string; Path : string; RawQuery : string }.

End Http.

(** ** golang.org/x/oauth2 *)

Module OAuth2.

Record Token := {
  AccessToken : string;
  TokenType : string;
  RefreshToken : string;
  Expiry : Z
}.

Record Endpoint := { AuthURL : string; TokenURL : string }.

Record Config := {
  ClientID : string;
  ClientSecret : string;
  Endpoint_ : Endpoint;
  RedirectURL : string;
  Scopes : list string
}.

Definition set_RedirectURL (uri : string) (c : Config) : Config :=
  {| ClientID := ClientID c; ClientSecret := ClientSecret c;
     Endpoint_ := Endpoint_ c; RedirectURL := uri; Scopes := Scopes c |}.

Inductive AuthCodeOption := SetAuthURLParam (key value : string).

Definition AccessTypeOffline : AuthCodeOption :=
  SetAuthURLParam "access_type" "offline".

Definition setValue (v : Values) (o : AuthCodeOption) : Values :=
  let 'SetAuthURLParam k x := o in <[k := [x]]> v.

(** The query parameters that [Config.AuthCodeURL] encodes. *)
Definition authCodeValues (c : Config) (state : string)
    (opts : list AuthCodeOption) : Values :=
  let v : Values := {[ "response_type" := ["code"]; "client_id" := [ClientID c] ]} in
  let v := if String.eqb (RedirectURL c) EmptyString then v
           else <["redirect_uri" := [RedirectURL c]]> v in
  let v := match Scopes c with
           | [] => v
           | _ => <["scope" := [String.concat " " (Scopes c)]]> v
           end in
  let v := if String.eqb state EmptyString then v else <["state" := [state]]> v in
  fold_left setValue opts v.

(** [Config.AuthCodeURL(state, opts...)]. *)
Definition AuthCodeURL (c : Config) (state : string)
    (opts : list AuthCodeOption) : string :=
  AuthURL (Endpoint_ c)
  +:+ (if Str.has_char "?" (AuthURL (Endpoint_ c)) then "&" else "?")
  +:+ Url.Encode (authCodeValues c state opts).

End OAuth2.


(** ** encoding/hex (lower case), the URL-safe text form of the state token *)

Module Hex.

Definition digit (n : nat) : ascii :=
  nth n (list_ascii_of_string "0123456789abcdef") "0"%char.

Definition undigit (c : ascii) : option nat :=
  let n := nat_of_ascii c in
  if Url.is_digit c then Some (n - 48)
  else if (97 <=? n)%nat && (n <=? 102)%nat then Some (n - 97 + 10)
  else None.

Fixpoint encode (bs : list byte) : string :=
  match bs with
  | [] => EmptyString
  | b :: r =>
      let n := N.to_nat (Byte.to_N b) in
      String (digit (n / 16)) (String (digit (n mod 16)) (encode r))
  end.

Fixpoint decode (s : string) : option (list byte) :=
  match s with
  | EmptyString => Some []
  | String a (String b r) =>
      hi ← undigit a; lo ← undigit b;
      x ← Byte.of_N (N.of_nat (hi * 16 + lo));
      (x ::.) <$> decode r
  | String _ EmptyString => None
  end.

End Hex.

(** ** The state token (NewState, Encrypt and Validate of package mercedes) *)

Module State.

(** Modelled from the spec: the failure kinds of [Validate]; state.go is
    not among the sources. *)
Inductive FailureKind := TamperedOrForged | Malformed.

#[global] Instance FailureKind_eq_dec : EqDecision FailureKind.
Proof. solve_decision. Defined.

(** Modelled from the spec: what the state token is built from and what
    state.go leaves open: the function that derives the authenticity tag
    of a payload from the session secret, the length of the random
    payload, and the text of the error of each failure kind. *)
Class Scheme := {
  mac : list byte → list byte → list byte;
  nonceLen : nat;
  nonceLen_pos : 0 < nonceLen;
  failureText : FailureKind → string
}.

(** Modelled from the spec: the state minted for one login attempt, a
    random payload and the secret it is authenticated under. *)
Record State := { payload : list byte; key : list byte }.

Section Token.
Context {scheme : Scheme}.

(** Modelled from the spec: [State.Encrypt], the payload followed by its
    tag, as a URL-safe string. *)
Definition Encrypt (s : State) : string :=
  Hex.encode (payload s ++ mac (key s) (payload s)).

(** Modelled from the spec: the payload and the tag that a token string
    carries, when it can be decoded. *)
Definition decode (enc : string) : option (list byte * list byte) :=
  bs ← Hex.decode enc;
  if decide (nonceLen ≤ length bs)
  then Some (take nonceLen bs, drop nonceLen bs) else None.

(** Modelled from the spec: [Validate(token, secret)]: [Malformed] when
    the string cannot be decoded, [TamperedOrForged] when the tag does
    not verify under [secret], success ([None]) otherwise. *)
Definition Validate (enc : string) (secret : list byte) : option FailureKind :=
  match decode enc with
  | None => Some Malformed
  | Some (p, tag) =>
      if decide (tag = mac secret p) then None else Some TamperedOrForged
  end.

End Token.

End State.

(** ** The world outside the process *)

(** A channel, by its identity. *)
Definition chan : Type := nat.

(** What the libraries and the network answer. Each field is the function of
    that name of the library; the handlers are verified for every answer. *)
Class Env := {
  (** [url.ParseQuery] *)
  ParseQuery : string → Values * option error;
  (** the [Location] that [http.Redirect] computes for a target, given the
      path of the request *)
  redirectLocation : string → string → string;
  (** [json.Marshal] of a string *)
  jsonString : string → string;
  (** [oidc.NewProvider(ctx, issuer)], by the endpoint of the provider *)
  NewProvider : string → OAuth2.Endpoint + error;
  (** [Config.Exchange(ctx, code)] *)
  Exchange : OAuth2.Config → string → OAuth2.Token + error;
  (** [Token.Valid()] *)
  Valid : OAuth2.Token → bool;
  (** the refresh of a token at the token endpoint *)
  refreshToken : OAuth2.Config → option OAuth2.Token → OAuth2.Token + error;
  (** whether the subscriber of a channel takes a value that is sent *)
  receiving : chan → bool
}.

(** ** The identity *)

(** Modelled from the spec: the state of [ReuseTokenSource], the cached
    token; its configuration [oc] is the one of the [Identity] that owns it
    and its callback is given to [Token]. *)
Record ReuseTokenSource := { token : option OAuth2.Token }.

(** [type Identity struct]; the logger is the trace of the run. *)
Record Identity := {
  ts : ReuseTokenSource;
  sessionSecret : list byte;
  oc : OAuth2.Config;
  authC : option chan
}.

(** The calls that a run leaves in the trace: a line of the logger, the
    validation of a state with its result, the exchange of a code with its
    answer, [ReuseTokenSource.Apply], a refresh of the cached token with its
    answer, a value delivered on a channel, and [provider.ResetCached()],
    which clears a cache outside this package. *)
Inductive Event :=
| EvLog (msg : string)
| EvValidate (state : string) (res : option State.FailureKind)
| EvExchange (code : string) (res : OAuth2.Token + error)
| EvApply (t : option OAuth2.Token)
| EvRefresh (old : option OAuth2.Token) (res : OAuth2.Token + error)
| EvSend (c : chan) (b : bool)
| EvResetCached.

(** The state a run reads and writes. *)
Record St := {
  ident : Identity;
  rand : list byte;
  trace : list Event;
  resp : Http.ResponseWriter
}.

(** How a run ends: it returns, or it stays at a channel send for ever. *)
Inductive Outcome (A : Type) :=
| Done (a : A) (s : St)
| Blocked (s : St).
Arguments Done {A} a s.
Arguments Blocked {A} s.

Definition M (A : Type) : Type := St → Outcome A.

Definition ret {A} (a : A) : M A := λ s, Done a s.

Definition bind {A B} (m : M A) (k : A → M B) : M B :=
  λ s, match m s with
       | Done a s' => k a s'
       | Blocked s' => Blocked s'
       end.

Declare Scope go_scope.
Delimit Scope go_scope with go.
Notation "'let*' x := m 'in' k" := (bind m (λ x, k))
  (at level 10, x pattern, m at level 100, k at level 200) : go_scope.
Notation "m ;; k" := (bind m (λ _, k))
  (at level 100, k at level 200, right associativity) : go_scope.

Definition final_state {A} (o : Outcome A) : St :=
  match o with Done _ s => s | Blocked s => s end.

Definition emit (e : Event) : M unit :=
  λ s, Done tt {| ident := ident s; rand := rand s;
                  trace := trace s ++ [e]; resp := resp s |}.

Definition getIdent : M Identity := λ s, Done (ident s) s.

Definition setIdent (v : Identity) : M unit :=
  λ s, Done tt {| ident := v; rand := rand s; trace := trace s; resp := resp s |}.

(** An operation on the [http.ResponseWriter] of the request. *)
Definition writer (f : Http.ResponseWriter → Http.ResponseWriter) : M unit :=
  λ s, Done tt {| ident := ident s; rand := rand s;
                  trace := trace s; resp := f (resp s) |}.

(** [io.ReadFull(rand.Reader, b)] on a buffer of [n] zero bytes: the source
    delivers the bytes it has and fails when it has too few. *)
Definition ReadFull (n : nat) : M (list byte * option error) :=
  λ s,
    let src := rand s in
    let out (r : list byte * option error) (rest : list byte) :=
      Done r {| ident := ident s; rand := rest; trace := trace s; resp := resp s |} in
    if decide (n ≤ length src) then out (take n src, None) (drop n src)
    else out (src ++ replicate (n - length src) x00,
              Some (match src with [] => "EOF" | _ => "unexpected EOF" end)) [].

(** The two lines that [CallbackHandler] logs. *)
Definition logRetrieved : Event := EvLog "callback request retrieved".
Definition logSending : Event := EvLog "sending login update...".

Section Program.
Context {world : Env} {scheme : State.Scheme}.
Local Open Scope go_scope.

(** [c <- b]: blocks for ever on the nil channel, and until the subscriber
    takes the value on another one. *)
Definition send (c : option chan) (b : bool) : M unit :=
  match c with
  | None => Blocked
  | Some ch => if receiving ch then emit (EvSend ch b) else Blocked
  end.

(** Modelled from the spec: [NewState(secret)], a fresh random payload
    under the secret. *)
Definition NewState (secret : list byte) : M State.State :=
  let* r := ReadFull State.nonceLen in
  ret {| State.payload := r.1; State.key := secret |}.

(** The call of [Validate], recorded in the trace. *)
Definition validate (state : string) (secret : list byte)
  : M (option State.FailureKind) :=
  let res := State.Validate state secret in
  emit (EvValidate state res);; ret res.

(** The call of [v.oc.Exchange], recorded in the trace. *)
Definition exchange (code : string) : M (OAuth2.Token + error) :=
  let* v := getIdent in
  let res := Exchange (oc v) code in
  emit (EvExchange code res);; ret res.

Definition set_token (t : option OAuth2.Token) (v : Identity) : Identity :=
  {| ts := {| token := t |}; sessionSecret := sessionSecret v;
     oc := oc v; authC := authC v |}.

(** Modelled from the spec: [ReuseTokenSource.Apply(t)] replaces the
    cached token; [nil] clears it. *)
Definition Apply (t : option OAuth2.Token) : M unit :=
  emit (EvApply t);;
  let* v := getIdent in
  setIdent (set_token t v).

(** Modelled from the spec: [ReuseTokenSource.Token()] with the callback
    [cb]: the cached token while it is valid; otherwise a refresh, whose
    token is cached and returned, and whose failure clears the cache and
    runs the callback before the error is returned. *)
Definition Token (cb : M unit) : M (OAuth2.Token + error) :=
  let* v := getIdent in
  let refresh :=
    let res := refreshToken (oc v) (token (ts v)) in
    emit (EvRefresh (token (ts v)) res);;
    match res with
    | inl t => setIdent (set_token (Some t) v);; ret (inl t)
    | inr e => setIdent (set_token None v);; cb;; ret (inr e)
    end in
  match token (ts v) with
  | Some t => if Valid t then ret (inl t) else refresh
  | None => refresh
  end.

(** [generateSecret] *)
Definition generateSecret : M (list byte * option error) := ReadFull 16.

(** [func (v *Identity) invalidToken()] *)
Definition invalidToken : M unit :=
  let* v := getIdent in
  if bool_decide (authC v ≠ None) then send (authC v) false else ret tt.

(** [func (v *Identity) SetCallbackParams(uri string, authC chan<- bool)] *)
Definition SetCallbackParams (uri : string) (c : option chan) : M unit :=
  let* v := getIdent in
  setIdent {| ts := ts v; sessionSecret := sessionSecret v;
              oc := OAuth2.set_RedirectURL uri (oc v); authC := c |}.

(** [type IdentityOptions func(c *Identity) error]; [WithToken] is the
    only one the package builds. *)
Inductive IdentityOptions := WithToken (t : option OAuth2.Token).

Definition run_option (o : IdentityOptions) : M (option error) :=
  let 'WithToken t := o in Apply t;; ret None.

(** The loop over the options of [NewIdentity]. *)
Fixpoint run_options (options : list IdentityOptions) (err : option error)
  : M (option error) :=
  match options with
  | [] => ret err
  | o :: rest =>
      match err with
      | None => let* err' := run_option o in run_options rest err'
      | Some _ => run_options rest err
      end
  end.

Definition issuer : string := "https://id.mercedes-benz.com".
Definition ScopeOfflineAccess : string := "offline_access".

(** [NewIdentity] after the discovery of the provider. *)
Definition construct (options : list IdentityOptions) : M (option error) :=
  Apply None;;
  let* r := generateSecret in
  let* v := getIdent in
  setIdent {| ts := ts v; sessionSecret := r.1; oc := oc v; authC := authC v |};;
  run_options options r.2.

(** [NewIdentity(log, id, secret, options...)] with the random source
    [src]: the identity and the error it returns, and the calls it made. *)
Definition NewIdentity (id secret : string) (options : list IdentityOptions)
    (src : list byte) : (option Identity * option error) * list Event :=
  match NewProvider issuer with
  | inr err => ((None, Some ("failed to initialize OIDC provider: " +:+ err)), [])
  | inl endpoint =>
      let oc := {| OAuth2.ClientID := id; OAuth2.ClientSecret := secret;
                   OAuth2.Endpoint_ := endpoint;
                   OAuth2.RedirectURL := EmptyString;
                   OAuth2.Scopes := [ScopeOfflineAccess; "mb:vehicle:mbdata:evstatus"] |} in
      let v := {| ts := {| token := None |}; sessionSecret := [];
                  oc := oc; authC := None |} in
      let o := construct options
                 {| ident := v; rand := src; trace := []; resp := Http.fresh |} in
      (* the construction sends on no channel: it always returns *)
      ((Some (ident (final_state o)),
        match o with Done err _ => err | Blocked _ => None end),
       trace (final_state o))
  end.

Definition Fprintln2 (a b : string) : M unit :=
  writer (Http.Write (Fmt.sprintln2 a b)).

Definition newline : string := String "010" EmptyString.

(** The body of [LoginHandler]: [json.Marshal] of the struct with the one
    field [loginUri]. *)
Definition loginBody (uri : string) : string :=
  "{" +:+ Http.dquote +:+ "loginUri" +:+ Http.dquote +:+ ":"
  +:+ jsonString uri +:+ "}".

(** The options [LoginHandler] passes to [AuthCodeURL]. *)
Definition loginOptions : list OAuth2.AuthCodeOption :=
  [OAuth2.AccessTypeOffline; OAuth2.SetAuthURLParam "prompt" "login consent"].

(** [func (v *Identity) LoginHandler() http.HandlerFunc] *)
Definition LoginHandler (r : Http.Request) : M unit :=
  let* v := getIdent in
  let* state := NewState (sessionSecret v) in
  let b := loginBody
             (OAuth2.AuthCodeURL (oc v) (State.Encrypt state) loginOptions) in
  writer (Http.WriteHeader Http.StatusOK);;
  writer (Http.Write b).

(** [func (v *Identity) LogoutHandler() http.HandlerFunc] *)
Definition LogoutHandler (r : Http.Request) : M unit :=
  Apply None;;
  let* v := getIdent in
  send (authC v) false;;
  writer (Http.WriteHeader Http.StatusOK);;
  writer (Http.Write EmptyString).

(** [func (v *Identity) CallbackHandler(baseURI string) http.HandlerFunc] *)
Definition CallbackHandler (baseURI : string) (r : Http.Request) : M unit :=
  emit logRetrieved;;
  let '(data, err) := ParseQuery (Http.RawQuery r) in
  match err with
  | Some _ => Fprintln2 "invalid response:" (Fmt.values data)
  | None =>
  match data !! "error" with
  | Some error =>
      writer (Http.Write ("error: " +:+ Fmt.strings error +:+ ": "
                +:+ Fmt.strings (default [] (data !! "error_description"))
                +:+ newline))
  | None =>
  match data !! "state" with
  | Some [state0] =>
      let* v := getIdent in
      let* verr := validate state0 (sessionSecret v) in
      match verr with
      | Some e =>
          writer (Http.Write ("failed state validation: " +:+ State.failureText e))
      | None =>
      match data !! "code" with
      | Some [code0] =>
          let* res := exchange code0 in
          match res with
          | inr e => Fprintln2 "token error:" e
          | inl token =>
              (if Valid token then
                 emit logSending;;
                 Apply (Some token);;
                 let* v := getIdent in
                 send (authC v) true;;
                 emit EvResetCached
               else ret tt);;
              writer (Http.Redirect (Http.Method r)
                        (redirectLocation (Http.Path r) baseURI) Http.StatusFound)
          end
      | _ => Fprintln2 "invalid response:" (Fmt.values data)
      end
      end
  | _ => Fprintln2 "invalid state response:" (Fmt.values data)
  end
  end
  end.

End Program.

(** ** Runs *)

(** The server calls a handler with a response writer of its own. *)
Definition serve (h : Http.Request → M unit) (r : Http.Request) (st : St)
  : Outcome unit :=
  h r {| ident := ident st; rand := rand st; trace := trace st; resp := Http.fresh |}.

(** The calls a run has added to the trace of the state it started in. *)
Definition emitted {A} (st : St) (o : Outcome A) : list Event :=
  drop (length (trace st)) (trace (final_state o)).

(** The steps of a login attempt, as they show in the trace. *)
Definition validated (e : Event) : bool :=
  match e with EvValidate _ None => true | _ => false end.
Definition exchange_call (e : Event) : bool :=
  match e with EvExchange _ _ => true | _ => false end.
Definition exchanged (e : Event) : bool :=
  match e with EvExchange _ (inl _) => true | _ => false end.
Definition applied (e : Event) : bool :=
  match e with EvApply _ => true | _ => false end.
Definition notified (e : Event) : bool :=
  match e with EvSend _ _ => true | _ => false end.

(** Every occurrence of a [Q] event in [l] comes after a [P] event. *)
Definition precedes (P Q : Event → bool) (l : list Event) : Prop :=
  ∀ i e, l !! i = Some e → Q e = true →
         ∃ j e', j < i ∧ l !! j = Some e' ∧ P e' = true.

(** The same, decided along the trace; [seen] tells whether a [P] event has
    passed. *)
Fixpoint precedesb (P Q : Event → bool) (seen : bool) (l : list Event) : bool :=
  match l with
  | [] => true
  | e :: l' => (if Q e then seen else true) && precedesb P Q (seen || P e) l'
  end.

(** An event that changes the login state or tells the subscriber. *)
Definition is_transition (e : Event) : bool :=
  match e with
  | EvApply _ | EvSend _ _ | EvResetCached => true
  | _ => false
  end.

Section Failures.
Context {world : Env} {scheme : State.Scheme}.

(** The ways a callback request fails, for the identity [v] and the
    answer [(data, err)] of [url.ParseQuery]. *)
Inductive CallbackFailure (v : Identity) (data : Values) (err : option error) : Prop :=
| Unparsable : is_Some err → CallbackFailure v data err
| ProviderError : is_Some (data !! "error") → CallbackFailure v data err
| BadState :
    (∀ s, data !! "state" = Some [s] →
          State.Validate s (sessionSecret v) ≠ None) →
    CallbackFailure v data err
| BadCode : (∀ c, data !! "code" ≠ Some [c]) → CallbackFailure v data err
| ExchangeError c e :
    data !! "code" = Some [c] → Exchange (oc v) c = inr e →
    CallbackFailure v data err.

(** The diagnostic texts of [CallbackHandler]. *)
Definition diagnostic (data : Values) (b : string) : Prop :=
  b = Fmt.sprintln2 "invalid response:" (Fmt.values data)
  ∨ b = "error: " +:+ Fmt.strings (default [] (data !! "error")) +:+ ": "
        +:+ Fmt.strings (default [] (data !! "error_description")) +:+ newline
  ∨ b = Fmt.sprintln2 "invalid state response:" (Fmt.values data)
  ∨ (∃ k, b = "failed state validation: " +:+ State.failureText k)
  ∨ (∃ e : error, b = Fmt.sprintln2 "token error:" e).

(** What a failed callback leaves: a 200 with one of the diagnostic texts,
    no redirect, the identity as it was and no transition in the trace. *)
Definition failed_outcome (st : St) (data : Values) (o : Outcome unit) : Prop :=
  ∃ st', o = Done tt st'
    ∧ Http.sent_status (resp st') = Http.StatusOK
    ∧ Http.location (resp st') = None
    ∧ diagnostic data (Http.body (resp st'))
    ∧ Http.body (resp st') ≠ EmptyString
    ∧ ident st' = ident st
    ∧ Forall (λ e, is_transition e = false) (emitted st o).

End Failures.

(** The state a run leaves: the events [evs] added to the trace of [st],
    the identity [v] and the response [w]. *)
Definition after (st : St) (evs : list Event) (v : Identity)
    (w : Http.ResponseWriter) : St :=
  {| ident := v; rand := rand st; trace := trace st ++ evs; resp := w |}.

Section Runs.
Context {world : Env} {scheme : State.Scheme}.

(** The runs of [CallbackHandler], one rule for each way through it. *)
Inductive CallbackRun (baseURI : string) (r : Http.Request) (st : St)
  : Outcome unit → Prop :=
| RunUnparsable data e :
    ParseQuery (Http.RawQuery r) = (data, Some e) →
    CallbackRun baseURI r st
      (Done tt (after st [logRetrieved] (ident st)
         (Http.Write (Fmt.sprintln2 "invalid response:" (Fmt.values data)) Http.fresh)))
| RunProviderError data errs :
    ParseQuery (Http.RawQuery r) = (data, None) →
    data !! "error" = Some errs →
    CallbackRun baseURI r st
      (Done tt (after st [logRetrieved] (ident st)
         (Http.Write ("error: " +:+ Fmt.strings errs +:+ ": "
                      +:+ Fmt.strings (default [] (data !! "error_description"))
                      +:+ newline) Http.fresh)))
| RunNoState data :
    ParseQuery (Http.RawQuery r) = (data, None) →
    data !! "error" = None →
    (∀ s, data !! "state" ≠ Some [s]) →
    CallbackRun baseURI r st
      (Done tt (after st [logRetrieved] (ident st)
         (Http.Write (Fmt.sprintln2 "invalid state response:" (Fmt.values data)) Http.fresh)))
| RunBadState data s k :
    ParseQuery (Http.RawQuery r) = (data, None) →
    data !! "error" = None →
    data !! "state" = Some [s] →
    State.Validate s (sessionSecret (ident st)) = Some k →
    CallbackRun baseURI r st
      (Done tt (after st [logRetrieved; EvValidate s (Some k)] (ident st)
         (Http.Write ("failed state validation: " +:+ State.failureText k) Http.fresh)))
| RunNoCode data s :
    ParseQuery (Http.RawQuery r) = (data, None) →
    data !! "error" = None →
    data !! "state" = Some [s] →
    State.Validate s (sessionSecret (ident st)) = None →
    (∀ c, data !! "code" ≠ Some [c]) →
    CallbackRun baseURI r st
      (Done tt (after st [logRetrieved; EvValidate s None] (ident st)
         (Http.Write (Fmt.sprintln2 "invalid response:" (Fmt.values data)) Http.fresh)))
| RunExchangeError data s c e :
    ParseQuery (Http.RawQuery r) = (data, None) →
    data !! "error" = None →
    data !! "state" = Some [s] →
    State.Validate s (sessionSecret (ident st)) = None →
    data !! "code" = Some [c] →
    Exchange (oc (ident st)) c = inr e →
    CallbackRun baseURI r st
      (Done tt (after st [logRetrieved; EvValidate s None; EvExchange c (inr e)]
         (ident st)
         (Http.Write (Fmt.sprintln2 "token error:" e) Http.fresh)))
| RunInvalidToken data s c tok :
    ParseQuery (Http.RawQuery r) = (data, None) →
    data !! "error" = None →
    data !! "state" = Some [s] →
    State.Validate s (sessionSecret (ident st)) = None →
    data !! "code" = Some [c] →
    Exchange (oc (ident st)) c = inl tok →
    Valid tok = false →
    CallbackRun baseURI r st
      (Done tt (after st [logRetrieved; EvValidate s None; EvExchange c (inl tok)]
         (ident st)
         (Http.Redirect (Http.Method r) (redirectLocation (Http.Path r) baseURI)
            Http.StatusFound Http.fresh)))
| RunBlocked data s c tok :
    ParseQuery (Http.RawQuery r) = (data, None) →
    data !! "error" = None →
    data !! "state" = Some [s] →
    State.Validate s (sessionSecret (ident st)) = None →
    data !! "code" = Some [c] →
    Exchange (oc (ident st)) c = inl tok →
    Valid tok = true →
    (∀ ch, authC (ident st) = Some ch → receiving ch = false) →
    CallbackRun baseURI r st
      (Blocked (after st [logRetrieved; EvValidate s None; EvExchange c (inl tok);
                          logSending; EvApply (Some tok)]
         (set_token (Some tok) (ident st)) Http.fresh))
| RunLogin data s c tok ch :
    ParseQuery (Http.RawQuery r) = (data, None) →
    data !! "error" = None →
    data !! "state" = Some [s] →
    State.Validate s (sessionSecret (ident st)) = None →
    data !! "code" = Some [c] →
    Exchange (oc (ident st)) c = inl tok →
    Valid tok = true →
    authC (ident st) = Some ch →
    receiving ch = true →
    CallbackRun baseURI r st
      (Done tt (after st [logRetrieved; EvValidate s None; EvExchange c (inl tok);
                          logSending; EvApply (Some tok); EvSend ch true;
                          EvResetCached]
         (set_token (Some tok) (ident st))
         (Http.Redirect (Http.Method r) (redirectLocation (Http.Path r) baseURI)
            Http.StatusFound Http.fresh))).

End Runs.

(** ** More vocabulary for the properties of the handlers *)

(** The token that [WithToken] carries. *)
Definition option_token (o : IdentityOptions) : option OAuth2.Token :=
  let 'WithToken t := o in t.

(** The token that is cached after the options have run in order on the
    cache [t0]: the one of the last option. *)
Definition final_token (t0 : option OAuth2.Token) (options : list IdentityOptions)
  : option OAuth2.Token :=
  foldl (λ _ o, option_token o) t0 options.

(** The identity that [NewIdentity] builds for the endpoint [ep], with the
    session secret [key] and the cached token [t]. *)
Definition built (id secret : string) (ep : OAuth2.Endpoint)
    (key : list byte) (t : option OAuth2.Token) : Identity :=
  {| ts := {| token := t |}; sessionSecret := key;
     oc := {| OAuth2.ClientID := id; OAuth2.ClientSecret := secret;
              OAuth2.Endpoint_ := ep; OAuth2.RedirectURL := EmptyString;
              OAuth2.Scopes := [ScopeOfflineAccess; "mb:vehicle:mbdata:evstatus"] |};
     authC := None |}.

(** Two identities with the same secret, configuration and channel. *)
Definition same_wiring (v v' : Identity) : Prop :=
  sessionSecret v' = sessionSecret v ∧ oc v' = oc v ∧ authC v' = authC v.

(** The values delivered on the channel [c], in order. *)
Definition notifications (c : chan) (evs : list Event) : list bool :=
  omap (λ e, match e with
             | EvSend c' b => if Nat.eqb c' c then Some b else None
             | _ => None
             end) evs.

(** Two worlds that give the same answers: the parser and the redirect of
    the libraries, the provider at the exchange, the verdict of [Valid] and
    the subscribers of the channels. *)
Definition answers_alike (w1 w2 : Env) : Prop :=
  (∀ q, @ParseQuery w2 q = @ParseQuery w1 q)
  ∧ (∀ p u, @redirectLocation w2 p u = @redirectLocation w1 p u)
  ∧ (∀ cfg c, @Exchange w2 cfg c = @Exchange w1 cfg c)
  ∧ (∀ t, @Valid w2 t = @Valid w1 t)
  ∧ (∀ ch, @receiving w2 ch = @receiving w1 ch).

(** ** A concrete world, to run the handlers on *)

Module Demo.

Definition goodToken : OAuth2.Token :=
  {| OAuth2.AccessToken := "at-1"; OAuth2.TokenType := "Bearer";
     OAuth2.RefreshToken := "rt-1"; OAuth2.Expiry := 2000 |}.

Definition staleToken : OAuth2.Token :=
  {| OAuth2.AccessToken := "at-0"; OAuth2.TokenType := "Bearer";
     OAuth2.RefreshToken := EmptyString; OAuth2.Expiry := 5 |}.

Definition endpoint : OAuth2.Endpoint :=
  {| OAuth2.AuthURL := "https://id.mercedes-benz.com/as/authorization.oauth2";
     OAuth2.TokenURL := "https://id.mercedes-benz.com/as/token.oauth2" |}.

(** JSON text of a string without control bytes: encoding/json escapes
    the quote, the backslash and the HTML characters. *)
Fixpoint jsonEscape (s : string) : string :=
  match s with
  | EmptyString => EmptyString
  | String c r =>
      (if Ascii.eqb c "034" then String "\" Http.dquote
       else if Ascii.eqb c "\" then "\\"
       else if Ascii.eqb c "&" then "\u0026"
       else if Ascii.eqb c "<" then "\u003c"
       else if Ascii.eqb c ">" then "\u003e"
       else String c EmptyString) +:+ jsonEscape r
  end.

(** The provider accepts the code [good], answers [late] with a token
    that has expired, and rejects every other code; the clock stands at
    1000; the subscriber of channel 1 takes what is sent, channel 2 has
    none; only the issuer of the package can be discovered. *)
#[global] Instance env : Env := {|
  ParseQuery := Url.ParseQuery;
  redirectLocation := λ _ target, target;
  jsonString := λ s, Http.dquote +:+ jsonEscape s +:+ Http.dquote;
  NewProvider := λ iss,
    if String.eqb iss "https://id.mercedes-benz.com" then inl endpoint
    else inr "404 Not Found";
  Exchange := λ _ code,
    if String.eqb code "good" then inl goodToken
    else if String.eqb code "late" then inl staleToken
    else inr "oauth2: cannot fetch token: 400 Bad Request";
  Valid := λ t,
    negb (String.eqb (OAuth2.AccessToken t) EmptyString)
    && (1000 <? OAuth2.Expiry t)%Z;
  refreshToken := λ _ old,
    match old with
    | Some t =>
        if String.eqb (OAuth2.RefreshToken t) EmptyString
        then inr "oauth2: token expired and refresh token is not set"
        else inl goodToken
    | None => inr "oauth2: token expired and refresh token is not set"
    end;
  receiving := λ c, Nat.eqb c 1
|}.

(** An environment whose provider cannot be discovered. *)
Definition offline : Env := {|
  ParseQuery := Url.ParseQuery;
  redirectLocation := λ _ target, target;
  jsonString := λ s, Http.dquote +:+ jsonEscape s +:+ Http.dquote;
  NewProvider := λ _, inr "Get https://id.mercedes-benz.com: dial tcp: no such host";
  Exchange := λ _ _, inr "offline";
  Valid := λ _, false;
  refreshToken := λ _ _, inr "offline";
  receiving := λ _, false
|}.

(** A tag that keeps the key apart: the key followed by the payload. *)
#[global] Instance scheme : State.Scheme := {|
  State.mac := λ k p, k ++ p;
  State.nonceLen := 2;
  State.nonceLen_pos := Nat.lt_0_succ 1;
  State.failureText := λ k,
    match k with
    | State.TamperedOrForged => "tampered or forged state"
    | State.Malformed => "malformed state"
    end
|}.

Definition secret1 : list byte := [x01; x02; x03; x04; x05; x06; x07; x08;
                                   x09; x0a; x0b; x0c; x0d; x0e; x0f; x10].
Definition secret2 : list byte := [xf1; xf2; xf3; xf4; xf5; xf6; xf7; xf8;
                                   xf9; xfa; xfb; xfc; xfd; xfe; xff; x00].

Definition config : OAuth2.Config :=
  {| OAuth2.ClientID := "evcc"; OAuth2.ClientSecret := "s3cret";
     OAuth2.Endpoint_ := endpoint;
     OAuth2.RedirectURL := "http://localhost:7070/cb";
     OAuth2.Scopes := ["offline_access"; "mb:vehicle:mbdata:evstatus"] |}.

(** An identity after [SetCallbackParams] with channel [c], holding the
    cached token [t]. *)
Definition identity (c : option chan) (t : option OAuth2.Token) : Identity :=
  {| ts := {| token := t |}; sessionSecret := secret1; oc := config; authC := c |}.

Definition state (c : option chan) (t : option OAuth2.Token) : St :=
  {| ident := identity c t; rand := [xaa; xbb; xcc; xdd]; trace := [];
     resp := Http.fresh |}.

Definition get (query : string) : Http.Request :=
  {| Http.Method := "GET"; Http.Path := "/auth/callback"; Http.RawQuery := query |}.

(** The state token of secret1 for the payload [aa bb], and the one a
    second identity, of secret2, mints for the same payload. *)
Definition ownState : string :=
  State.Encrypt {| State.payload := [xaa; xbb]; State.key := secret1 |}.
Definition foreignState : string :=
  State.Encrypt {| State.payload := [xaa; xbb]; State.key := secret2 |}.

Definition base : string := "http://localhost:7070".

(** The state after the random source has given the two bytes of a
    payload. *)
Definition minted (c : option chan) (t : option OAuth2.Token) : St :=
  {| ident := identity c t; rand := [xcc; xdd]; trace := [];
     resp := Http.fresh |}.

(** The second identity, of secret2. *)
Definition otherState : St :=
  {| ident := {| ts := {| token := None |}; sessionSecret := secret2;
                 oc := config; authC := Some 1 |};
     rand := [xaa; xbb; xcc; xdd]; trace := []; resp := Http.fresh |}.

Definition otherMinted : St :=
  {| ident := ident otherState; rand := [xcc; xdd]; trace := [];
     resp := Http.fresh |}.

(** The callback of a login that went through. *)
Definition loginRequest : Http.Request :=
  get ("state=" +:+ ownState +:+ "&code=good").

(** The same with an [error] parameter in front. *)
Definition errorRequest : Http.Request :=
  get ("error=access_denied&state=" +:+ ownState +:+ "&code=good").

(** The same with a parameter that cannot be unescaped. *)
Definition brokenRequest : Http.Request :=
  get ("state=" +:+ ownState +:+ "&code=good&lang=%zz").

(** The user has cancelled at the provider. *)
Definition cancelledRequest : Http.Request :=
  get "error=access_denied&error_description=user+cancelled".

(** A callback with the state of the other identity. *)
Definition foreignRequest : Http.Request :=
  get ("state=" +:+ foreignState +:+ "&code=good").

(** A callback whose code the provider answers with an expired token. *)
Definition lateRequest : Http.Request :=
  get ("state=" +:+ ownState +:+ "&code=late").

(** A callback whose code the provider rejects. *)
Definition rejectedRequest : Http.Request :=
  get ("state=" +:+ ownState +:+ "&code=used").

(** A callback with the valid state twice. *)
Definition twoStatesRequest : Http.Request :=
  get ("state=" +:+ ownState +:+ "&state=" +:+ ownState +:+ "&code=good").

(** A callback with the code twice. *)
Definition twoCodesRequest : Http.Request :=
  get ("state=" +:+ ownState +:+ "&code=good&code=good").

(** Seventeen bytes of the random source. *)
Definition entropy : list byte := secret1 ++ [xaa].

(** A state that differs from [state] in all but secret, configuration
    and channel. *)
Definition busyState (c : option chan) : St :=
  {| ident := identity c (Some staleToken); rand := [];
     trace := [EvLog "earlier"; EvSend 1 true]; resp := Http.fresh |}.

(** A scheme whose tag reads the first byte of the secret only: it does
    not keep all secrets apart. *)
Definition weakScheme : State.Scheme := {|
  State.mac := λ k p, take 1 k ++ p;
  State.nonceLen := 2;
  State.nonceLen_pos := Nat.lt_0_succ 1;
  State.failureText := λ k,
    match k with
    | State.TamperedOrForged => "tampered or forged state"
    | State.Malformed => "malformed state"
    end
|}.

(** A third secret of 16 bytes; it begins like secret1. *)
Definition secret3 : list byte := x01 :: replicate 15 xee.

(** The identity of secret3, and what it mints under the weak scheme. *)
Definition thirdState : St :=
  {| ident := {| ts := {| token := None |}; sessionSecret := secret3;
                 oc := config; authC := Some 1 |};
     rand := [xaa; xbb; xcc; xdd]; trace := []; resp := Http.fresh |}.

Definition thirdMinted : St :=
  {| ident := ident thirdState; rand := [xcc; xdd]; trace := [];
     resp := Http.fresh |}.

Definition weakForeignState : string :=
  State.Encrypt (scheme := weakScheme)
    {| State.payload := [xaa; xbb]; State.key := secret3 |}.

Definition weakForeignRequest : Http.Request :=
  get ("state=" +:+ weakForeignState +:+ "&code=good").

(** The world a moment later: the provider has seen the code [good] and
    rejects it; the rest is as in [env]. *)
Definition later : Env := {|
  ParseQuery := Url.ParseQuery;
  redirectLocation := λ _ target, target;
  jsonString := λ s, Http.dquote +:+ jsonEscape s +:+ Http.dquote;
  NewProvider := λ _, inl endpoint;
  Exchange := λ _ _, inr "oauth2: cannot fetch token: 400 Bad Request";
  Valid := λ t,
    negb (String.eqb (OAuth2.AccessToken t) EmptyString)
    && (1000 <? OAuth2.Expiry t)%Z;
  refreshToken := λ _ _, inr "oauth2: token expired and refresh token is not set";
  receiving := λ c, Nat.eqb c 1
|}.

End Demo.
(** * The library models on examples *)

Example ParseQuery_cancelled :
  Url.ParseQuery "error=access_denied&error_description=user+cancelled"
  = ({[ "error" := ["access_denied"]; "error_description" := ["user cancelled"] ]}, None).
Proof. vm_compute. reflexivity. Qed.

Example ParseQuery_bad_escape :
  Url.ParseQuery "state=abc&code=%zz&code=7"
  = ({[ "state" := ["abc"]; "code" := ["7"] ]}, Some "invalid URL escape").
Proof. vm_compute. reflexivity. Qed.

Example Encode_sorted :
  Url.Encode {[ "state" := ["0a1b"]; "prompt" := ["login consent"]; "client_id" := ["a&b"] ]}
  = "client_id=a%26b&prompt=login+consent&state=0a1b".
Proof. vm_compute. reflexivity. Qed.

Example fmt_values_sorted :
  Fmt.values {[ "state" := ["x"; "y"]; "code" := ["7"] ]} = "map[code:[7] state:[x y]]".
Proof. vm_compute. reflexivity. Qed.

Example AuthCodeURL_example :
  OAuth2.AuthCodeURL
    {| OAuth2.ClientID := "id"; OAuth2.ClientSecret := "s";
       OAuth2.Endpoint_ := {| OAuth2.AuthURL := "https://id.example/auth";
                              OAuth2.TokenURL := "https://id.example/token" |};
       OAuth2.RedirectURL := "http://localhost:7070/cb";
       OAuth2.Scopes := ["offline_access"; "mb:vehicle:mbdata:evstatus"] |}
    "00ff" [OAuth2.AccessTypeOffline; OAuth2.SetAuthURLParam "prompt" "login consent"]
  = "https://id.example/auth?access_type=offline&client_id=id&prompt=login+consent&redirect_uri=http%3A%2F%2Flocalhost%3A7070%2Fcb&response_type=code&scope=offline_access+mb%3Avehicle%3Ambdata%3Aevstatus&state=00ff".
Proof. vm_compute. reflexivity. Qed.


(** * net/url: parsing what was encoded *)

Lemma unescape_escape_char c r :
  Url.QueryUnescape (Url.QueryEscape (String c r))
  = String c <$> Url.QueryUnescape (Url.QueryEscape r).
Proof. destruct c as [[] [] [] [] [] [] [] []]; reflexivity. Qed.

Lemma QueryUnescape_QueryEscape s : Url.QueryUnescape (Url.QueryEscape s) = Some s.
Proof.
  induction s as [|c s IH]; [reflexivity|].
  rewrite unescape_escape_char, IH. reflexivity.
Qed.

Lemma escape_char_no_sep sep c r :
  sep = "&"%char ∨ sep = "="%char ∨ sep = ";"%char →
  Str.has_char sep (Url.QueryEscape (String c r))
  = Str.has_char sep (Url.QueryEscape r).
Proof.
  intros [-> | [-> | ->]]; destruct c as [[] [] [] [] [] [] [] []]; reflexivity.
Qed.

Lemma QueryEscape_no_sep sep s :
  sep = "&"%char ∨ sep = "="%char ∨ sep = ";"%char →
  Str.has_char sep (Url.QueryEscape s) = false.
Proof.
  intros Hsep. induction s as [|c s IH]; [reflexivity|].
  by rewrite escape_char_no_sep.
Qed.

Lemma has_char_app c a b :
  Str.has_char c (a +:+ b) = Str.has_char c a || Str.has_char c b.
Proof.
  induction a as [|x a IH]; [reflexivity|].
  change (Ascii.eqb c x || Str.has_char c (a +:+ b)
          = Ascii.eqb c x || Str.has_char c a || Str.has_char c b).
  rewrite IH. by rewrite orb_assoc.
Qed.

Lemma split_no_sep sep a : Str.has_char sep a = false → Str.split sep a = [a].
Proof.
  induction a as [|x a IH]; [reflexivity|].
  simpl. intros [Hx Ha]%orb_false_iff.
  rewrite Ascii.eqb_sym, Hx, IH by done. reflexivity.
Qed.

Lemma split_app sep a b :
  Str.has_char sep a = false →
  Str.split sep (a +:+ String sep b) = a :: Str.split sep b.
Proof.
  induction a as [|x a IH].
  - intros _. simpl. by rewrite Ascii.eqb_refl.
  - simpl. intros [Hx Ha]%orb_false_iff.
    rewrite Ascii.eqb_sym, Hx, IH by done. reflexivity.
Qed.

Lemma cut_app sep a b :
  Str.has_char sep a = false →
  Str.cut sep (a +:+ String sep b) = (a, Some b).
Proof.
  induction a as [|x a IH].
  - intros _. simpl. by rewrite Ascii.eqb_refl.
  - simpl. intros [Hx Ha]%orb_false_iff.
    rewrite Ascii.eqb_sym, Hx, IH by done. reflexivity.
Qed.

(** [strings.Split] undoes [strings.Join] on pieces without the separator. *)
Lemma split_concat sep (l : list string) :
  l ≠ [] → Forall (λ s, Str.has_char sep s = false) l →
  Str.split sep (String.concat (String sep EmptyString) l) = l.
Proof.
  induction l as [|x l IH]; [done|]. intros _ Hall.
  apply Forall_cons in Hall as [Hx Hl].
  destruct l as [|y l]; [by apply split_no_sep|].
  change (Str.split sep (x +:+ String sep (String.concat (String sep EmptyString) (y :: l)))
          = x :: y :: l).
  rewrite split_app by done. by rewrite IH.
Qed.

Lemma parse_pair k v m err :
  Url.parse_segment (Url.QueryEscape k +:+ "=" +:+ Url.QueryEscape v) (m, err)
  = (<[k := default [] (m !! k) ++ [v]]> m, err).
Proof.
  unfold Url.parse_segment.
  rewrite has_char_app, QueryEscape_no_sep by auto.
  change ("=" +:+ Url.QueryEscape v) with (String "=" (Url.QueryEscape v)).
  cbn [Str.has_char orb]. rewrite QueryEscape_no_sep by auto.
  change (Ascii.eqb ";" "=") with false. cbn [orb].
  replace (String.eqb (Url.QueryEscape k +:+ String "=" (Url.QueryEscape v)) EmptyString)
    with false by (by destruct (Url.QueryEscape k)).
  rewrite cut_app by (apply QueryEscape_no_sep; auto).
  cbn [default from_option id]. by rewrite !QueryUnescape_QueryEscape.
Qed.

Lemma parse_pairs k vs m :
  fold_left (λ acc seg, Url.parse_segment seg acc) (Url.pairs (k, vs)) (m, None)
  = (Url.put m (k, vs), None).
Proof.
  unfold Url.put, Url.pairs; simpl.
  destruct vs as [|v vs]; [reflexivity|].
  assert (Hgen : ∀ vs pre m,
            m !! k = Some pre →
            fold_left (λ acc seg, Url.parse_segment seg acc)
              ((λ v, Url.QueryEscape k +:+ "=" +:+ Url.QueryEscape v) <$> vs) (m, None)
            = (<[k := pre ++ vs]> m, None)).
  { clear. induction vs as [|v vs IH]; intros pre m Hk.
    - simpl. by rewrite app_nil_r, insert_id.
    - rewrite fmap_cons. cbn [fold_left]. rewrite parse_pair.
      rewrite Hk. cbn [default].
      rewrite (IH (pre ++ [v])) by by rewrite lookup_insert_eq.
      by rewrite insert_insert_eq, <- app_assoc. }
  rewrite fmap_cons. cbn [fold_left]. rewrite parse_pair.
  rewrite (Hgen vs (default [] (m !! k) ++ [v])) by by rewrite lookup_insert_eq.
  by rewrite insert_insert_eq, <- app_assoc.
Qed.

Lemma parse_entries es m :
  fold_left (λ acc seg, Url.parse_segment seg acc) (es ≫= Url.pairs) (m, None)
  = (foldl Url.put m es, None).
Proof.
  revert m. induction es as [|[k vs] es IH]; intros m; [reflexivity|].
  rewrite bind_cons, fold_left_app, parse_pairs. apply IH.
Qed.

Lemma foldl_put_other es acc k :
  k ∉ es.*1 → foldl Url.put acc es !! k = acc !! k.
Proof.
  revert acc. induction es as [|[k' vs] es IH]; intros acc Hk; [reflexivity|].
  rewrite fmap_cons, not_elem_of_cons in Hk. destruct Hk as [Hne Hk].
  simpl. rewrite IH by done. unfold Url.put; simpl.
  destruct vs; [done|]. by rewrite lookup_insert_ne.
Qed.

Lemma foldl_put_lookup es acc k vs :
  NoDup es.*1 → (k, vs) ∈ es →
  foldl Url.put acc es !! k = Url.put acc (k, vs) !! k.
Proof.
  revert acc. induction es as [|[k' vs'] es IH]; intros acc Hnd Hin.
  - by apply elem_of_nil in Hin.
  - rewrite fmap_cons in Hnd. apply NoDup_cons in Hnd as [Hk' Hnd].
    apply elem_of_cons in Hin as [[= <- <-]|Hin].
    + simpl. by rewrite foldl_put_other.
    + simpl. rewrite IH by done.
      assert (k ≠ k').
      { intros ->. apply Hk'. apply list_elem_of_fmap. by exists (k', vs). }
      assert (Hacc : Url.put acc (k', vs') !! k = acc !! k).
      { unfold Url.put; simpl. destruct vs'; [done|]. by rewrite lookup_insert_ne. }
      generalize dependent (Url.put acc (k', vs')). intros acc' Hacc.
      unfold Url.put; simpl. destruct vs; [done|].
      by rewrite !lookup_insert_eq, Hacc.
Qed.

Lemma entries_NoDup (m : Values) : NoDup (Fmt.entries m).*1.
Proof.
  unfold Fmt.entries. rewrite merge_sort_Permutation.
  apply NoDup_fst_map_to_list.
Qed.

Lemma segments_no_amp (m : Values) :
  Forall (λ s, Str.has_char "&" s = false) (Url.segments m).
Proof.
  apply Forall_forall. intros seg Hin. unfold Url.segments in Hin.
  apply list_elem_of_bind in Hin as ([k vs] & Hseg & _).
  unfold Url.pairs in Hseg; simpl in Hseg.
  apply list_elem_of_fmap in Hseg as (v & -> & _).
  rewrite has_char_app, QueryEscape_no_sep by auto.
  change ("=" +:+ Url.QueryEscape v) with (String "=" (Url.QueryEscape v)).
  cbn [Str.has_char orb]. rewrite QueryEscape_no_sep by auto. reflexivity.
Qed.

(** [url.ParseQuery] reads back what [Values.Encode] has written: every
    parameter with its values, and no error. *)
Lemma ParseQuery_Encode (m : Values) :
  (∀ k, (Url.ParseQuery (Url.Encode m)).1 !! k
        = match m !! k with
          | Some (v :: vs) => Some (v :: vs)
          | _ => None
          end)
  ∧ (Url.ParseQuery (Url.Encode m)).2 = None.
Proof.
  assert (Hparse : Url.ParseQuery (Url.Encode m) = (foldl Url.put ∅ (Fmt.entries m), None)).
  { unfold Url.ParseQuery, Url.Encode.
    destruct (Url.segments m) as [|seg segs] eqn:Hsegs.
    - simpl. 
      pose proof (parse_entries (Fmt.entries m) ∅) as Hfold.
      fold (Url.segments m) in Hfold. rewrite Hsegs in Hfold. simpl in Hfold.
      by rewrite <- Hfold.
    - rewrite split_concat; [|done|rewrite <- Hsegs; apply segments_no_amp].
      rewrite <- Hsegs. apply parse_entries. }
  rewrite Hparse. split; [|reflexivity]. intros k. simpl.
  destruct (m !! k) as [vs|] eqn:Hk.
  - rewrite (foldl_put_lookup _ _ k vs).
    + unfold Url.put; simpl. destruct vs; [apply lookup_empty|].
      by rewrite lookup_insert_eq, lookup_empty.
    + apply entries_NoDup.
    + unfold Fmt.entries. rewrite merge_sort_Permutation. by apply elem_of_map_to_list.
  - rewrite foldl_put_other; [apply lookup_empty|].
    intros Hin. apply list_elem_of_fmap in Hin as ([k' vs] & -> & Hin).
    unfold Fmt.entries in Hin. rewrite merge_sort_Permutation in Hin.
    apply elem_of_map_to_list in Hin. simpl in Hk. congruence.
Qed.

(** * Properties *)

Section Properties.
Context {world : Env} {scheme : State.Scheme}.
Local Open Scope go_scope.

Lemma after_nil st : after st [] (ident st) (resp st) = st.
Proof. destruct st; unfold after; simpl; by rewrite app_nil_r. Qed.

(** Two answers to the same question are the same answer. *)
Ltac same_answers :=
  repeat match goal with
         | A : ?x = _, B : ?x = _ |- _ => rewrite A in B; simplify_eq
         end.

(** Runs the monad of the goal and of the rule [R] side by side. *)
Ltac by_rule R :=
  generalize R;
  unfold bind, validate, exchange, Apply, send, emit, getIdent, setIdent,
    ret, writer, Fprintln2, after;
  simpl;
  repeat match goal with
         | E : ?x = _ |- context [?x] => rewrite E; simpl
         end;
  rewrite <- ?app_assoc; simpl; exact id.

(** [CallbackHandler] runs by the rules of [CallbackRun]. *)
Lemma callback_run baseURI r st :
  CallbackRun baseURI r st (serve (CallbackHandler baseURI) r st).
Proof.
  unfold serve, CallbackHandler.
  destruct (ParseQuery (Http.RawQuery r)) as [data [e|]] eqn:Hq.
  { exact (RunUnparsable baseURI r st data e Hq). }
  destruct (data !! "error") as [errs|] eqn:Herr.
  { exact (RunProviderError baseURI r st data errs Hq Herr). }
  assert (Hno : (∀ s, data !! "state" ≠ Some [s]) →
    CallbackRun baseURI r st
      (Done tt (after st [logRetrieved] (ident st)
         (Http.Write (Fmt.sprintln2 "invalid state response:" (Fmt.values data)) Http.fresh))))
    by (intros Hn; exact (RunNoState baseURI r st data Hq Herr Hn)).
  destruct (data !! "state") as [[|s [|s' states]]|] eqn:Hs;
    try (apply Hno; congruence).
  clear Hno.
  destruct (State.Validate s (sessionSecret (ident st))) as [k|] eqn:Hv.
  { by_rule (RunBadState baseURI r st data s k Hq Herr Hs Hv). }
  assert (Hno : (∀ c, data !! "code" ≠ Some [c]) →
    CallbackRun baseURI r st
      (Done tt (after st [logRetrieved; EvValidate s None] (ident st)
         (Http.Write (Fmt.sprintln2 "invalid response:" (Fmt.values data)) Http.fresh))))
    by (intros Hn; exact (RunNoCode baseURI r st data s Hq Herr Hs Hv Hn)).
  destruct (data !! "code") as [[|c [|c' codes]]|] eqn:Hc;
    try (generalize (Hno ltac:(congruence));
         unfold bind, validate, emit, getIdent, ret, writer, Fprintln2, after;
         simpl; rewrite Hv; rewrite <- ?app_assoc; exact id).
  clear Hno.
  destruct (Exchange (oc (ident st)) c) as [tok|e] eqn:Hx.
  2: { by_rule (RunExchangeError baseURI r st data s c e Hq Herr Hs Hv Hc Hx). }
  destruct (Valid tok) eqn:Hvalid.
  2: { by_rule (RunInvalidToken baseURI r st data s c tok Hq Herr Hs Hv Hc Hx Hvalid). }
  destruct (authC (ident st)) as [ch|] eqn:Hch.
  2: { assert (Hb : ∀ ch, authC (ident st) = Some ch → receiving ch = false)
         by (intros ch; rewrite Hch; discriminate).
       by_rule (RunBlocked baseURI r st data s c tok Hq Herr Hs Hv Hc Hx Hvalid Hb). }
  destruct (receiving ch) eqn:Hrecv.
  - by_rule (RunLogin baseURI r st data s c tok ch Hq Herr Hs Hv Hc Hx Hvalid Hch Hrecv).
  - assert (Hb : ∀ ch', authC (ident st) = Some ch' → receiving ch' = false)
      by (intros ch'; rewrite Hch; intros [= <-]; exact Hrecv).
    by_rule (RunBlocked baseURI r st data s c tok Hq Herr Hs Hv Hc Hx Hvalid Hb).
Qed.

(** Takes the run of the callback apart by its rule. *)
Ltac by_cases_of_run baseURI r st :=
  destruct (callback_run baseURI r st); same_answers;
  try match goal with
      | Hn : ∀ x, ?m !! ?k ≠ Some [x], E : ?m !! ?k = Some [_] |- _ =>
          by destruct (Hn _ E)
      | Hb : ∀ x, authC ?v = Some x → _, E : authC ?v = Some _ |- _ =>
          specialize (Hb _ E); congruence
      end.

(** *** The response writer *)

Lemma Write_fresh b :
  Http.Write b Http.fresh
  = {| Http.status := Some Http.StatusOK; Http.header := ∅; Http.body := b |}.
Proof. reflexivity. Qed.

Lemma Redirect_fresh_status meth loc code :
  Http.sent_status (Http.Redirect meth loc code Http.fresh) = code.
Proof.
  unfold Http.Redirect.
  replace (bool_decide (is_Some (Http.header Http.fresh !! "Content-Type")))
    with false by (symmetry; apply bool_decide_eq_false; simpl;
                   rewrite lookup_empty; by intros [? ?]).
  simpl. by destruct (String.eqb meth "GET"), (String.eqb meth "HEAD").
Qed.

Lemma Redirect_fresh_location meth loc code :
  Http.location (Http.Redirect meth loc code Http.fresh) = Some [loc].
Proof.
  unfold Http.Redirect, Http.location.
  replace (bool_decide (is_Some (Http.header Http.fresh !! "Content-Type")))
    with false by (symmetry; apply bool_decide_eq_false; simpl;
                   rewrite lookup_empty; by intros [? ?]).
  simpl.
  destruct (String.eqb meth "GET"), (String.eqb meth "HEAD"); simpl;
    rewrite ?lookup_insert_ne by done; by rewrite lookup_insert_eq.
Qed.

Lemma emitted_after {A} st evs v w (a : A) :
  emitted st (Done a (after st evs v w)) = evs.
Proof. unfold emitted, after; simpl. by rewrite drop_app_length. Qed.

Lemma emitted_after_blocked {A} st evs v w :
  emitted st (@Blocked A (after st evs v w)) = evs.
Proof. unfold emitted, after; simpl. by rewrite drop_app_length. Qed.

(** *** Failing callbacks *)

Ltac failed_by_write :=
  unfold failed_outcome;
  eexists; split; [reflexivity|]; rewrite emitted_after;
  split; [reflexivity|]; split; [reflexivity|];
  split; [unfold diagnostic;
          repeat match goal with
                 | E : _ !! _ = Some _ |- _ => rewrite E; clear E
                 end; simpl; eauto 8|];
  split; [simpl; discriminate|];
  split; [reflexivity|]; repeat constructor.

Lemma failing_callback_run baseURI r st data err :
  ParseQuery (Http.RawQuery r) = (data, err) →
  CallbackFailure (ident st) data err →
  failed_outcome st data (serve (CallbackHandler baseURI) r st).
Proof.
  intros Hq Hfail.
  destruct (callback_run baseURI r st);
    match goal with
    | E : ParseQuery _ = _ |- _ => rewrite Hq in E; simplify_eq
    end.
  - failed_by_write.
  - failed_by_write.
  - failed_by_write.
  - failed_by_write.
  - failed_by_write.
  - failed_by_write.
  - exfalso. destruct Hfail as [[? ?]|[? ?]|Hs|Hc|c' e' Hc He];
      first [congruence | by eapply Hs | by eapply Hc].
  - exfalso. destruct Hfail as [[? ?]|[? ?]|Hs|Hc|c' e' Hc He];
      first [congruence | by eapply Hs | by eapply Hc].
  - exfalso. destruct Hfail as [[? ?]|[? ?]|Hs|Hc|c' e' Hc He];
      first [congruence | by eapply Hs | by eapply Hc].
Qed.

(** *** Texts *)

Lemma append_assoc (a b c : string) : (a +:+ b) +:+ c = a +:+ (b +:+ c).
Proof.
  induction a as [|x a IH]; [reflexivity|].
  change (String x ((a +:+ b) +:+ c) = String x (a +:+ (b +:+ c))).
  by f_equal.
Qed.

Lemma append_nil_r (a : string) : a +:+ EmptyString = a.
Proof.
  induction a as [|x a IH]; [reflexivity|].
  change (String x (a +:+ EmptyString) = String x a). by f_equal.
Qed.

Lemma contains_refl s : Str.contains s s.
Proof. exists EmptyString, EmptyString. simpl. by rewrite append_nil_r. Qed.

Lemma contains_app t s a b :
  Str.contains t s → Str.contains (a +:+ t +:+ b) s.
Proof.
  intros (pre & post & ->). exists (a +:+ pre), (post +:+ b).
  by rewrite !append_assoc.
Qed.

Lemma contains_trans t u s :
  Str.contains t u → Str.contains u s → Str.contains t s.
Proof. intros (pre & post & ->) Hs. by apply contains_app. Qed.

Lemma contains_app_l t s a : Str.contains t s → Str.contains (a +:+ t) s.
Proof.
  intros Hc. rewrite <- (append_nil_r t). by apply contains_app.
Qed.

Lemma contains_app_r t s b : Str.contains t s → Str.contains (t +:+ b) s.
Proof. intros Hc. by apply (contains_app t s EmptyString b). Qed.

Lemma contains_concat sep (l : list string) v :
  v ∈ l → Str.contains (String.concat sep l) v.
Proof.
  induction l as [|x l IH]; [by intros ?%elem_of_nil|].
  intros [->|Hin]%elem_of_cons.
  - destruct l; [apply contains_refl|]. apply contains_app_r, contains_refl.
  - destruct l as [|y l]; [by apply elem_of_nil in Hin|].
    change (Str.contains (x +:+ sep +:+ String.concat sep (y :: l)) v).
    apply contains_app_l, contains_app_l, IH, Hin.
Qed.

Lemma entries_elem (m : Values) k vs : m !! k = Some vs → (k, vs) ∈ Fmt.entries m.
Proof.
  intros Hk. unfold Fmt.entries. rewrite merge_sort_Permutation.
  by apply elem_of_map_to_list.
Qed.

(** [%s] of a slice shows each of its elements as it is. *)
Lemma strings_contains vs v : v ∈ vs → Str.contains (Fmt.strings vs) v.
Proof. intros Hin. apply contains_app, contains_concat, Hin. Qed.

(** [%v] of the query shows each value of each parameter as it is. *)
Lemma values_contains (m : Values) k vs v :
  m !! k = Some vs → v ∈ vs → Str.contains (Fmt.values m) v.
Proof.
  intros Hk Hin. unfold Fmt.values.
  apply contains_app, contains_trans with (u := Fmt.entry (k, vs)).
  - apply contains_concat, list_elem_of_fmap.
    exists (k, vs). split; [done|by apply entries_elem].
  - unfold Fmt.entry; simpl. by apply contains_app_l, contains_app_l, strings_contains.
Qed.

Lemma sprintln2_contains a b v :
  Str.contains b v → Str.contains (Fmt.sprintln2 a b) v.
Proof.
  intros Hc. unfold Fmt.sprintln2.
  by apply contains_app_l, contains_app_l, contains_app_r.
Qed.

(** *** The state token *)

Lemma undigit_digit n : n < 16 → Hex.undigit (Hex.digit n) = Some n.
Proof.
  intros Hn. do 16 (destruct n as [|n]; [reflexivity|]). lia.
Qed.

Lemma byte_digits (b : byte) :
  let n := N.to_nat (Byte.to_N b) in
  Byte.of_N (N.of_nat (n / 16 * 16 + n mod 16)) = Some b.
Proof. destruct b; reflexivity. Qed.

Lemma byte_lt_256 (b : byte) : N.to_nat (Byte.to_N b) < 256.
Proof. destruct b; vm_compute; lia. Qed.

Lemma hex_decode_encode bs : Hex.decode (Hex.encode bs) = Some bs.
Proof.
  induction bs as [|b bs IH]; [reflexivity|].
  pose proof (byte_lt_256 b) as Hb.
  cbn [Hex.encode Hex.decode].
  rewrite !undigit_digit
    by (try apply Nat.mod_upper_bound; try apply Nat.Div0.div_lt_upper_bound; lia).
  cbn [mbind option_bind].
  rewrite (byte_digits b). cbn [mbind option_bind]. by rewrite IH.
Qed.

Lemma hex_encode_app xs ys :
  Hex.encode (xs ++ ys) = Hex.encode xs +:+ Hex.encode ys.
Proof. induction xs as [|x xs IH]; [reflexivity|]. simpl. by rewrite IH. Qed.

Lemma escape_digit n r :
  n < 16 →
  Url.QueryEscape (String (Hex.digit n) r) = String (Hex.digit n) (Url.QueryEscape r).
Proof.
  intros Hn. do 16 (destruct n as [|n]; [reflexivity|]). lia.
Qed.

(** A hex string passes [url.QueryEscape] unchanged. *)
Lemma QueryEscape_hex bs : Url.QueryEscape (Hex.encode bs) = Hex.encode bs.
Proof.
  induction bs as [|b bs IH]; [reflexivity|].
  pose proof (byte_lt_256 b) as Hb.
  cbn [Hex.encode].
  rewrite !escape_digit
    by (try apply Nat.mod_upper_bound; try apply Nat.Div0.div_lt_upper_bound; lia).
  by rewrite IH.
Qed.

Lemma QueryEscape_Encrypt s :
  Url.QueryEscape (State.Encrypt s) = State.Encrypt s.
Proof. apply QueryEscape_hex. Qed.

Lemma decode_Encrypt s :
  length (State.payload s) = State.nonceLen →
  State.decode (State.Encrypt s)
  = Some (State.payload s, State.mac (State.key s) (State.payload s)).
Proof.
  intros Hlen. unfold State.decode, State.Encrypt.
  rewrite hex_decode_encode. cbn [mbind option_bind].
  rewrite decide_True by (rewrite length_app; lia).
  rewrite <- Hlen. by rewrite take_app_length, drop_app_length.
Qed.

(** A minted token validates against the secret it was minted under. *)
Lemma Validate_Encrypt s :
  length (State.payload s) = State.nonceLen →
  State.Validate (State.Encrypt s) (State.key s) = None.
Proof.
  intros Hlen. unfold State.Validate. rewrite decode_Encrypt by done.
  by rewrite decide_True.
Qed.

(** Under another secret the tag does not verify, when the tag keeps the
    keys apart. *)
Lemma Validate_other_secret s secret :
  (∀ k1 k2 p, State.mac k1 p = State.mac k2 p → k1 = k2) →
  length (State.payload s) = State.nonceLen →
  State.key s ≠ secret →
  State.Validate (State.Encrypt s) secret = Some State.TamperedOrForged.
Proof.
  intros Hsep Hlen Hne. unfold State.Validate. rewrite decode_Encrypt by done.
  rewrite decide_False; [done|]. intros Heq. apply Hne. by eapply Hsep.
Qed.

Lemma Encrypt_not_empty s :
  length (State.payload s) = State.nonceLen →
  State.Encrypt s ≠ EmptyString.
Proof.
  intros Hlen. pose proof State.nonceLen_pos.
  unfold State.Encrypt. destruct (State.payload s); simpl in *; [lia|discriminate].
Qed.

Lemma ReadFull_length n st :
  ∃ bs err rest,
    ReadFull n st
    = Done (bs, err) {| ident := ident st; rand := rest;
                        trace := trace st; resp := resp st |}
    ∧ length bs = n.
Proof.
  unfold ReadFull. destruct (decide (n ≤ length (rand st))).
  - do 3 eexists. split; [reflexivity|]. rewrite length_take. lia.
  - do 3 eexists. split; [reflexivity|].
    rewrite length_app, length_replicate. lia.
Qed.

(** [NewState] mints under the secret it is given, with a payload of the
    length of the scheme, and touches the random source only. *)
Lemma NewState_run secret st :
  ∃ p rest,
    NewState secret st
    = Done {| State.payload := p; State.key := secret |}
           {| ident := ident st; rand := rest; trace := trace st; resp := resp st |}
    ∧ length p = State.nonceLen.
Proof.
  destruct (ReadFull_length State.nonceLen st) as (bs & err & rest & Hr & Hlen).
  exists bs, rest. unfold NewState, bind, ret. rewrite Hr. by split.
Qed.

(** *** The login URL *)

(** A value of a key has its [key=value] piece in the encoded query. *)
Lemma segments_elem (m : Values) k vs v :
  m !! k = Some vs → v ∈ vs →
  (Url.QueryEscape k +:+ "=" +:+ Url.QueryEscape v) ∈ Url.segments m.
Proof.
  intros Hk Hv. unfold Url.segments. apply list_elem_of_bind.
  exists (k, vs). split; [|by apply entries_elem].
  unfold Url.pairs. simpl. apply list_elem_of_fmap. by exists v.
Qed.

(** [AuthCodeURL] with the options of [LoginHandler] keeps the state. *)
Lemma authCodeValues_state c state :
  state ≠ EmptyString →
  OAuth2.authCodeValues c state loginOptions !! "state" = Some [state].
Proof.
  intros Hne. unfold OAuth2.authCodeValues, loginOptions. cbn [fold_left OAuth2.setValue OAuth2.AccessTypeOffline].
  rewrite !lookup_insert_ne by done.
  destruct (String.eqb_spec state EmptyString) as [->|_]; [done|].
  by rewrite lookup_insert_eq.
Qed.

(** C3: a login request is answered 200 with the JSON object whose one
    field [loginUri] is the authorization URL of the provider followed by
    the encoded query (the body is the text: brace, the quoted name
    loginUri, colon, the JSON text of that URL, brace; no header is set); the query carries a [state] parameter (as a piece
    of the string, and as [url.ParseQuery] reads it back), its value is a
    token minted under the session secret of the identity, and that token
    validates against the same secret. *)
Theorem login_response r st :
  ∃ st' p,
    let tok := State.Encrypt {| State.payload := p;
                                State.key := sessionSecret (ident st) |} in
    let vals := OAuth2.authCodeValues (oc (ident st)) tok loginOptions in
    serve LoginHandler r st = Done tt st'
    ∧ Http.status (resp st') = Some 200
    ∧ Http.header (resp st') = ∅
    ∧ Http.body (resp st')
      = String "{" (String "034" ("loginUri" +:+ String "034" (String ":"
          (jsonString
             (OAuth2.AuthURL (OAuth2.Endpoint_ (oc (ident st)))
              +:+ (if Str.has_char "?"
                        (OAuth2.AuthURL (OAuth2.Endpoint_ (oc (ident st))))
                   then "&" else "?")
              +:+ Url.Encode vals)
           +:+ "}"))))
    ∧ vals !! "state" = Some [tok]
    ∧ ("state=" +:+ tok) ∈ Url.segments vals
    ∧ (Url.ParseQuery (Url.Encode vals)).1 !! "state" = Some [tok]
    ∧ length p = State.nonceLen
    ∧ State.Validate tok (sessionSecret (ident st)) = None
    ∧ ident st' = ident st
    ∧ emitted st (Done tt st') = [].
Proof.
  destruct (NewState_run (sessionSecret (ident st))
              {| ident := ident st; rand := rand st; trace := trace st;
                 resp := Http.fresh |}) as (p & rest & Hnew & Hlen).
  set (state := {| State.payload := p; State.key := sessionSecret (ident st) |}) in *.
  assert (Hne : State.Encrypt state ≠ EmptyString) by by apply Encrypt_not_empty.
  eexists _, p. cbn zeta. fold state.
  split.
  { unfold serve, LoginHandler, bind at 1, getIdent. cbn [ident].
    unfold bind at 1. rewrite Hnew. reflexivity. }
  cbn [resp ident writer bind].
  split; [reflexivity|]. split; [reflexivity|]. split; [reflexivity|].
  split; [by apply authCodeValues_state|].
  split.
  { pose proof (segments_elem _ "state" _ (State.Encrypt state)
                  (authCodeValues_state (oc (ident st)) _ Hne)) as Hseg.
    rewrite QueryEscape_Encrypt in Hseg. apply Hseg. by left. }
  split.
  { rewrite (proj1 (ParseQuery_Encode _)).
    by rewrite authCodeValues_state. }
  split; [done|].
  split; [by apply (Validate_Encrypt state)|].
  split; [reflexivity|].
  unfold emitted. simpl. by rewrite drop_all.
Qed.

(** *** The callback *)

(** C1 (as amended): a callback whose query parses without error, carries
    no [error] parameter, exactly one state value that validates against
    the session secret and exactly one code value, whose exchange returns
    a valid token, on an identity whose notification channel is set and
    has a subscriber taking the value: the handler stores the token in
    the token source, sends [true] once on the channel, and answers 302
    with the location of the configured base URI. *)
Theorem callback_login baseURI r st data s c tok ch :
  ParseQuery (Http.RawQuery r) = (data, None) →
  data !! "error" = None →
  data !! "state" = Some [s] →
  State.Validate s (sessionSecret (ident st)) = None →
  data !! "code" = Some [c] →
  Exchange (oc (ident st)) c = inl tok →
  Valid tok = true →
  authC (ident st) = Some ch →
  receiving ch = true →
  ∃ st', serve (CallbackHandler baseURI) r st = Done tt st'
    ∧ token (ts (ident st')) = Some tok
    ∧ emitted st (Done tt st')
      = [logRetrieved; EvValidate s None; EvExchange c (inl tok); logSending;
         EvApply (Some tok); EvSend ch true; EvResetCached]
    ∧ Http.sent_status (resp st') = Http.StatusFound
    ∧ Http.location (resp st') = Some [redirectLocation (Http.Path r) baseURI].
Proof.
  intros Hq Herr Hs Hv Hc Hx Hvalid Hch Hrecv.
  by_cases_of_run baseURI r st.
  eexists; split; [reflexivity|].
  rewrite emitted_after.
  split; [reflexivity|]. split; [reflexivity|].
  split; [apply Redirect_fresh_status | apply Redirect_fresh_location].
Qed.

(** C2: a callback that fails (a query that does not parse, an [error]
    parameter, a state that is missing, repeated or does not validate, a
    code that is missing or repeated, or an exchange that returns an
    error) is answered 200 with one of the diagnostic texts and without a
    redirect; no token is applied, nothing is sent on the channel and the
    identity is as it was. *)
Theorem callback_failure baseURI r st data err :
  ParseQuery (Http.RawQuery r) = (data, err) →
  CallbackFailure (ident st) data err →
  ∃ st', serve (CallbackHandler baseURI) r st = Done tt st'
    ∧ Http.sent_status (resp st') = Http.StatusOK
    ∧ Http.location (resp st') = None
    ∧ diagnostic data (Http.body (resp st'))
    ∧ Http.body (resp st') ≠ EmptyString
    ∧ ident st' = ident st
    ∧ Forall (λ e, is_transition e = false) (emitted st (Done tt st')).
Proof.
  intros Hq Hfail.
  destruct (failing_callback_run baseURI r st data err Hq Hfail)
    as (st' & Hrun & Hrest).
  exists st'. rewrite Hrun in Hrest. by split.
Qed.


(** C5: a callback whose query has an [error] parameter is answered 200
    with a body that shows every value of [error] and every value of
    [error_description] as it is (after a query that parses, the line
    [error: [...]: [...]]); there is no redirect, the identity is unchanged
    and nothing is applied or sent. *)
Theorem provider_error_reported baseURI r st data err errs :
  ParseQuery (Http.RawQuery r) = (data, err) →
  data !! "error" = Some errs →
  ∃ st', serve (CallbackHandler baseURI) r st = Done tt st'
    ∧ Http.sent_status (resp st') = Http.StatusOK
    ∧ Http.location (resp st') = None
    ∧ (∀ v, v ∈ errs → Str.contains (Http.body (resp st')) v)
    ∧ (∀ v, v ∈ default [] (data !! "error_description") →
            Str.contains (Http.body (resp st')) v)
    ∧ (err = None →
       Http.body (resp st')
       = "error: " +:+ Fmt.strings errs +:+ ": "
         +:+ Fmt.strings (default [] (data !! "error_description")) +:+ newline)
    ∧ ident st' = ident st
    ∧ emitted st (Done tt st') = [logRetrieved].
Proof.
  intros Hq Herr.
  by_cases_of_run baseURI r st; try congruence.
  - eexists; split; [reflexivity|]. rewrite emitted_after.
    split; [reflexivity|]. split; [reflexivity|].
    split; [|split; [|by repeat split]].
    + intros v Hv. apply sprintln2_contains. by eapply values_contains.
    + intros v Hv.
      destruct (_ !! "error_description") as [ds|] eqn:Hd;
        [|by apply elem_of_nil in Hv].
      apply sprintln2_contains. by eapply values_contains.
  - eexists; split; [reflexivity|]. rewrite emitted_after.
    split; [reflexivity|]. split; [reflexivity|].
    split; [|split; [|by repeat split]].
    + intros v Hv.
      apply (contains_app_l _ _ "error: "), contains_app_r.
      by apply strings_contains.
    + intros v Hv.
      apply (contains_app_l _ _ "error: "), contains_app_l,
        (contains_app_l _ _ ": "), contains_app_r.
      by apply strings_contains.
Qed.

(** The calls of a callback, in the order they are made: the trace is cut
    from one sequence, at the step that fails or blocks. *)
Lemma callback_trace baseURI r st :
  let new := emitted st (serve (CallbackHandler baseURI) r st) in
  new = [logRetrieved]
  ∨ (∃ s k, new = [logRetrieved; EvValidate s (Some k)])
  ∨ (∃ s, new = [logRetrieved; EvValidate s None])
  ∨ (∃ s c e, new = [logRetrieved; EvValidate s None; EvExchange c (inr e)])
  ∨ (∃ s c tok, Valid tok = false
       ∧ new = [logRetrieved; EvValidate s None; EvExchange c (inl tok)])
  ∨ (∃ s c tok, Valid tok = true
       ∧ new = [logRetrieved; EvValidate s None; EvExchange c (inl tok);
                logSending; EvApply (Some tok)])
  ∨ (∃ s c tok ch, Valid tok = true
       ∧ new = [logRetrieved; EvValidate s None; EvExchange c (inl tok);
                logSending; EvApply (Some tok); EvSend ch true; EvResetCached]).
Proof.
  cbn zeta.
  destruct (callback_run baseURI r st);
    rewrite ?emitted_after, ?emitted_after_blocked; eauto 15.
Qed.

(** [precedesb] decides [precedes]. *)
Lemma precedesb_sound P Q l seen :
  precedesb P Q seen l = true →
  ∀ i e, l !! i = Some e → Q e = true →
         seen = true ∨ ∃ j e', j < i ∧ l !! j = Some e' ∧ P e' = true.
Proof.
  revert seen. induction l as [|x l IH]; intros seen Hb i e Hi HQ; [done|].
  simpl in Hb. apply andb_true_iff in Hb as [Hx Hl].
  destruct i as [|i]; simpl in Hi.
  - injection Hi as ->. rewrite HQ in Hx. by left.
  - destruct (IH _ Hl i e Hi HQ) as [Hseen|(j & e' & Hj & He' & HP)].
    + apply orb_true_iff in Hseen as [->|HPx]; [by left|].
      right. exists 0, x. split; [lia|]. by split.
    + right. exists (S j), e'. split; [lia|]. by split.
Qed.

Lemma precedesb_precedes P Q l :
  precedesb P Q false l = true → precedes P Q l.
Proof.
  intros Hb i e Hi HQ.
  by destruct (precedesb_sound P Q l false Hb i e Hi HQ).
Qed.

(** Looks for an event in a trace that is written out. *)
Ltac not_in_trace Hin :=
  exfalso;
  repeat (apply elem_of_cons in Hin as [Hin|Hin];
          [first [discriminate | injection Hin as -> ->; congruence]|]);
  by apply elem_of_nil in Hin.

(** C6: in the trace of every callback, the call of the exchange comes
    after a validation that succeeded, and an Apply and a send come after
    a validation that succeeded and after an exchange that returned a
    token; the send comes after the Apply;
    when the validation fails there is no exchange, no Apply and no send,
    and when the exchange fails there is no Apply and no send. *)
Theorem callback_order baseURI r st :
  let new := emitted st (serve (CallbackHandler baseURI) r st) in
  precedes validated exchange_call new
  ∧ precedes validated applied new
  ∧ precedes validated notified new
  ∧ precedes exchanged applied new
  ∧ precedes exchanged notified new
  ∧ precedes applied notified new
  ∧ (∀ s k, EvValidate s (Some k) ∈ new →
       Forall (λ e, exchange_call e = false ∧ applied e = false
                    ∧ notified e = false) new)
  ∧ (∀ c e, EvExchange c (inr e) ∈ new →
       Forall (λ e, applied e = false ∧ notified e = false) new).
Proof.
  cbn zeta.
  destruct (callback_trace baseURI r st)
    as [Hn|[(s & k & Hn)|[(s & Hn)|[(s & c & e & Hn)|[(s & c & tok & Hv & Hn)
        |[(s & c & tok & Hv & Hn)|(s & c & tok & ch & Hv & Hn)]]]]]];
    cbn zeta in Hn; rewrite Hn;
    do 6 (split; [by apply precedesb_precedes|]);
    (split; [intros s' k' Hin | intros c' e' Hin]);
    first [ by repeat constructor
          | by not_in_trace Hin ].
Qed.

(** C9: when the exchange of a callback returns a token that is not
    valid, the handler answers 302 with the location of the configured
    base URI; no token is applied, nothing is sent and the identity is
    unchanged. *)
Theorem callback_invalid_token baseURI r st c tok :
  EvExchange c (inl tok) ∈ emitted st (serve (CallbackHandler baseURI) r st) →
  Valid tok = false →
  ∃ st', serve (CallbackHandler baseURI) r st = Done tt st'
    ∧ Http.sent_status (resp st') = Http.StatusFound
    ∧ Http.location (resp st') = Some [redirectLocation (Http.Path r) baseURI]
    ∧ ident st' = ident st
    ∧ Forall (λ e, is_transition e = false) (emitted st (Done tt st')).
Proof.
  intros Hin Hvalid. revert Hin.
  by_cases_of_run baseURI r st;
    rewrite ?emitted_after, ?emitted_after_blocked; intros Hin;
    try (by not_in_trace Hin).
  eexists; split; [reflexivity|]. rewrite emitted_after.
  split; [apply Redirect_fresh_status|].
  split; [apply Redirect_fresh_location|].
  split; [reflexivity|]. repeat constructor.
Qed.

(** *** Logout *)

Lemma Apply_run t st :
  Apply t st = Done tt (after st [EvApply t] (set_token t (ident st)) (resp st)).
Proof. reflexivity. Qed.

(** C7 (as amended): on an identity whose notification channel is set
    and has a subscriber taking the value, a logout request clears the
    cached token, sends [false] once on the channel and is answered 200
    with an empty body; a call of [Token] after it does not read the
    cache: it asks for a refresh and returns the token of the refresh, or
    runs the callback and returns the error of the refresh, whatever
    token was cached before the logout. *)
Theorem logout_clears r st ch :
  authC (ident st) = Some ch →
  receiving ch = true →
  ∃ st', serve LogoutHandler r st = Done tt st'
    ∧ ident st' = set_token None (ident st)
    ∧ emitted st (Done tt st') = [EvApply None; EvSend ch false]
    ∧ resp st' = {| Http.status := Some Http.StatusOK; Http.header := ∅;
                   Http.body := EmptyString |}
    ∧ ∀ cb,
        match refreshToken (oc (ident st)) None with
        | inl t =>
            Token cb st'
            = Done (inl t) (after st' [EvRefresh None (inl t)]
                              (set_token (Some t) (ident st)) (resp st'))
        | inr e =>
            Token cb st'
            = (cb;; ret (inr e))
                (after st' [EvRefresh None (inr e)]
                   (set_token None (ident st)) (resp st'))
        end.
Proof.
  intros Hch Hrecv.
  eexists. split.
  { unfold serve, LogoutHandler, bind, Apply, emit, getIdent, setIdent, send,
      writer, set_token; simpl. rewrite Hch, Hrecv. simpl.
    rewrite <- app_assoc. reflexivity. }
  split; [unfold set_token; simpl; by rewrite Hch|].
  split; [unfold emitted; simpl; by rewrite drop_app_length|].
  split; [reflexivity|].
  intros cb.
  unfold Token, bind, getIdent, setIdent, emit, ret, after, set_token; simpl.
  destruct (refreshToken (oc (ident st)) None) as [t|e]; simpl;
    by rewrite Hch.
Qed.

(** *** Construction *)

(** The options of [NewIdentity] apply tokens: they leave the rest of the
    identity alone and send nothing. *)
Lemma run_options_run options err st :
  ∃ err' st' evs,
    run_options options err st = Done err' st'
    ∧ oc (ident st') = oc (ident st)
    ∧ authC (ident st') = authC (ident st)
    ∧ sessionSecret (ident st') = sessionSecret (ident st)
    ∧ trace st' = trace st ++ evs
    ∧ Forall (λ e, applied e = true) evs.
Proof.
  revert err st. induction options as [|[t] options IH]; intros err st.
  - exists err, st, []. simpl. rewrite app_nil_r. by repeat split.
  - destruct err as [e|]; simpl.
    + apply IH.
    + unfold bind at 1. unfold run_option, bind at 1. rewrite Apply_run.
      unfold ret.
      destruct (IH None (after st [EvApply t] (set_token t (ident st)) (resp st)))
        as (err' & st' & evs & Hrun & Hoc & Hch & Hsec & Htr & Hevs).
      exists err', st', (EvApply t :: evs). rewrite Hrun.
      split; [done|]. split; [done|]. split; [done|]. split; [done|].
      split; [|by constructor].
      rewrite Htr. unfold after; simpl. by rewrite <- app_assoc.
Qed.

Lemma construct_run options st :
  ∃ err st' evs,
    construct options st = Done err st'
    ∧ oc (ident st') = oc (ident st)
    ∧ authC (ident st') = authC (ident st)
    ∧ length (sessionSecret (ident st')) = 16
    ∧ trace st' = trace st ++ evs
    ∧ Forall (λ e, applied e = true) evs.
Proof.
  unfold construct, bind at 1. rewrite Apply_run.
  unfold generateSecret, bind at 1.
  destruct (ReadFull_length 16 (after st [EvApply None] (set_token None (ident st)) (resp st)))
    as (bs & rerr & rest & Hread & Hlen).
  rewrite Hread. unfold bind, getIdent, setIdent. cbn [ident trace rand resp after fst snd].
  match goal with
  | |- context [run_options options rerr ?s] =>
      destruct (run_options_run options rerr s)
        as (err' & st' & evs & Hrun & Hoc & Hch & Hsec & Htr & Hevs)
  end.
  exists err', st', (EvApply None :: evs). rewrite Hrun.
  split; [done|]. split; [done|]. split; [done|].
  split; [by rewrite Hsec|].
  split; [|by constructor].
  rewrite Htr. simpl. by rewrite <- app_assoc.
Qed.

Lemma NewIdentity_cases id secret options src :
  (∀ e, NewProvider issuer = inr e →
        NewIdentity id secret options src
        = ((None, Some ("failed to initialize OIDC provider: " +:+ e)), []))
  ∧ (∀ v err evs,
        NewIdentity id secret options src = ((Some v, err), evs) →
        ∃ ep, NewProvider issuer = inl ep
              ∧ OAuth2.Endpoint_ (oc v) = ep
              ∧ OAuth2.ClientID (oc v) = id
              ∧ OAuth2.ClientSecret (oc v) = secret
              ∧ authC v = None).
Proof.
  unfold NewIdentity. split.
  - by intros e ->.
  - intros v err evs. destruct (NewProvider issuer) as [ep|e]; [|done].
    match goal with
    | |- context [construct options ?s] =>
        destruct (construct_run options s)
          as (err' & st' & evs' & Hrun & Hoc & Hch & Hsec & Htr & Hevs)
    end.
    rewrite Hrun. cbn [final_state]. intros [= <- <- <-].
    exists ep. rewrite Hoc, Hch. by repeat split.
Qed.

(** C8: when the discovery of the provider fails, [NewIdentity] returns
    no identity and the error of the discovery under the prefix of the
    package; and every identity that [NewIdentity] returns carries the
    endpoint of a provider that was discovered. *)
Theorem NewIdentity_provider id secret options src :
  (∀ e, NewProvider issuer = inr e →
        NewIdentity id secret options src
        = ((None, Some ("failed to initialize OIDC provider: " +:+ e)), []))
  ∧ (∀ v err evs,
        NewIdentity id secret options src = ((Some v, err), evs) →
        ∃ ep, NewProvider issuer = inl ep
              ∧ OAuth2.Endpoint_ (oc v) = ep
              ∧ OAuth2.ClientID (oc v) = id
              ∧ OAuth2.ClientSecret (oc v) = secret
              ∧ authC v = None).
Proof. apply NewIdentity_cases. Qed.

(** *** The invalidation callback *)

(** C10: [invalidToken] does nothing on an identity without a channel,
    sends [false] on the channel of an identity that has one with a
    subscriber, and never sends anything else; an identity has no channel after [NewIdentity] and the one
    it is given after [SetCallbackParams]; so a refresh that fails on an
    identity without a channel clears the cache and returns its error
    with nothing sent and without blocking. *)
Theorem invalidToken_guard st :
  (authC (ident st) = None → invalidToken st = Done tt st)
  ∧ (∀ ch, authC (ident st) = Some ch → receiving ch = true →
           invalidToken st
           = Done tt (after st [EvSend ch false] (ident st) (resp st)))
  ∧ (∀ c b, EvSend c b ∈ emitted st (invalidToken st) →
            authC (ident st) = Some c ∧ b = false)
  ∧ (∀ id secret options src v err evs,
        NewIdentity id secret options src = ((Some v, err), evs) →
        authC v = None)
  ∧ (∀ uri c, ∃ st', SetCallbackParams uri c st = Done tt st'
                     ∧ authC (ident st') = c)
  ∧ (authC (ident st) = None →
     ∀ e, (∀ t, token (ts (ident st)) = Some t → Valid t = false) →
          refreshToken (oc (ident st)) (token (ts (ident st))) = inr e →
          Token invalidToken st
          = Done (inr e) (after st [EvRefresh (token (ts (ident st))) (inr e)]
                            (set_token None (ident st)) (resp st))).
Proof.
  split; [|split; [|split; [|split; [|split]]]].
  - intros Hch. unfold invalidToken, bind, getIdent. by rewrite Hch.
  - intros ch Hch Hrecv. unfold invalidToken, bind, getIdent, send.
    rewrite Hch. simpl. by rewrite Hrecv.
  - intros c b. unfold invalidToken, bind, getIdent, send, emitted.
    destruct (authC (ident st)) as [ch|]; simpl.
    + destruct (receiving ch); simpl.
      * rewrite drop_app_length. intros Hin.
        apply list_elem_of_singleton in Hin. by injection Hin as -> ->.
      * rewrite drop_all. by intros ?%elem_of_nil.
    + rewrite drop_all. by intros ?%elem_of_nil.
  - intros id secret options src v err evs Hnew.
    destruct (proj2 (NewIdentity_cases id secret options src) v err evs Hnew)
      as (ep & _ & _ & _ & _ & Hch). exact Hch.
  - intros uri c. eexists. split; reflexivity.
  - intros Hch e Hinvalid Hrefresh.
    unfold Token, bind at 1, getIdent.
    assert (Hgo : ∀ k : M (OAuth2.Token + error),
               match token (ts (ident st)) with
               | Some t => if Valid t then ret (inl t) else k
               | None => k
               end = k).
    { intros k. destruct (token (ts (ident st))) as [t|]; [|done].
      by rewrite (Hinvalid t eq_refl). }
    rewrite Hgo. rewrite Hrefresh.
    unfold bind, emit, setIdent, invalidToken, getIdent, ret, after, set_token; simpl.
    by rewrite Hch.
Qed.

(** *** More about construction and the handlers *)

Lemma set_token_same v : set_token (token (ts v)) v = v.
Proof. by destruct v as [[t] k c a]. Qed.

Lemma set_token_twice t t' v : set_token t (set_token t' v) = set_token t v.
Proof. reflexivity. Qed.

Lemma run_options_applies options st :
  run_options options None st
  = Done None
      (after st ((λ o, EvApply (option_token o)) <$> options)
         (set_token (final_token (token (ts (ident st))) options) (ident st))
         (resp st)).
Proof.
  revert st. induction options as [|[t] options IH]; intros st.
  - simpl. unfold ret, after. rewrite set_token_same, app_nil_r. by destruct st.
  - cbn [run_options]. unfold bind at 1, run_option, bind at 1.
    rewrite Apply_run. unfold ret. rewrite IH.
    unfold after, final_token; simpl. by rewrite <- app_assoc.
Qed.

Lemma run_options_skipped options e st :
  run_options options (Some e) st = Done (Some e) st.
Proof. induction options as [|o options IH]; [reflexivity|]. exact IH. Qed.

Lemma construct_enough options st :
  16 ≤ length (rand st) →
  construct options st
  = Done None
      {| ident := {| ts := {| token := final_token None options |};
                     sessionSecret := take 16 (rand st);
                     oc := oc (ident st); authC := authC (ident st) |};
         rand := drop 16 (rand st);
         trace := trace st ++ EvApply None
                    :: ((λ o, EvApply (option_token o)) <$> options);
         resp := resp st |}.
Proof.
  intros Hlen.
  unfold construct, bind at 1. rewrite Apply_run.
  unfold generateSecret, bind at 1, ReadFull.
  cbn [rand after]. rewrite decide_True by done.
  unfold bind at 1, getIdent. unfold bind at 1, setIdent.
  cbn [ident fst snd]. rewrite run_options_applies.
  unfold after, set_token; simpl. by rewrite <- app_assoc.
Qed.

Lemma construct_short options st :
  length (rand st) < 16 →
  construct options st
  = Done (Some (match rand st with [] => "EOF" | _ => "unexpected EOF" end))
      {| ident := {| ts := {| token := None |};
                     sessionSecret := rand st ++ replicate (16 - length (rand st)) x00;
                     oc := oc (ident st); authC := authC (ident st) |};
         rand := [];
         trace := trace st ++ [EvApply None];
         resp := resp st |}.
Proof.
  intros Hlen.
  unfold construct, bind at 1. rewrite Apply_run.
  unfold generateSecret, bind at 1, ReadFull.
  cbn [rand after]. rewrite decide_False by lia.
  unfold bind at 1, getIdent. unfold bind at 1, setIdent.
  cbn [ident fst snd]. rewrite run_options_skipped.
  reflexivity.
Qed.

(** X1: when the provider is discovered and the random source has 16
    bytes, [NewIdentity] returns no error and the identity with these 16
    bytes as session secret, the client id, client secret, endpoint and
    the two scopes in its configuration, no redirect URL, no channel, and
    the token of the last [WithToken] option in the cache; its calls are
    [Apply(nil)] and then one [Apply] for each option, in order. *)
Theorem NewIdentity_success id secret options src ep :
  NewProvider issuer = inl ep →
  16 ≤ length src →
  NewIdentity id secret options src
  = ((Some (built id secret ep (take 16 src) (final_token None options)), None),
     EvApply None :: ((λ o, EvApply (option_token o)) <$> options)).
Proof.
  intros Hp Hlen. unfold NewIdentity. rewrite Hp. cbv zeta.
  rewrite construct_enough by done. reflexivity.
Qed.

(** X2: when the random source fails before 16 bytes, [NewIdentity]
    returns the error together with an identity: its secret is what was
    read, filled with zero bytes to 16, and none of the options has run,
    so a token given by [WithToken] is not in the cache. *)
Theorem NewIdentity_short_random id secret options src ep :
  NewProvider issuer = inl ep →
  length src < 16 →
  NewIdentity id secret options src
  = ((Some (built id secret ep (src ++ replicate (16 - length src) x00) None),
      Some (match src with [] => "EOF" | _ => "unexpected EOF" end)),
     [EvApply None]).
Proof.
  intros Hp Hlen. unfold NewIdentity. rewrite Hp. cbv zeta.
  rewrite construct_short by done. reflexivity.
Qed.

Lemma LogoutHandler_run r st :
  serve LogoutHandler r st
  = match authC (ident st) with
    | Some ch =>
        if receiving ch
        then Done tt (after st [EvApply None; EvSend ch false]
                        (set_token None (ident st))
                        {| Http.status := Some Http.StatusOK; Http.header := ∅;
                           Http.body := EmptyString |})
        else Blocked (after st [EvApply None] (set_token None (ident st)) Http.fresh)
    | None => Blocked (after st [EvApply None] (set_token None (ident st)) Http.fresh)
    end.
Proof.
  unfold serve, LogoutHandler, bind at 1. rewrite Apply_run.
  unfold bind at 1, getIdent. cbn [ident after authC set_token].
  destruct (authC (ident st)) as [ch|]; [|reflexivity].
  unfold send. destruct (receiving ch); [|reflexivity].
  unfold bind, emit, writer, after; simpl. by rewrite <- app_assoc.
Qed.

Lemma LoginHandler_run r st :
  ∃ p rest,
    length p = State.nonceLen
    ∧ serve LoginHandler r st
      = Done tt
          {| ident := ident st; rand := rest; trace := trace st;
             resp := {| Http.status := Some Http.StatusOK; Http.header := ∅;
                        Http.body :=
                          loginBody
                            (OAuth2.AuthCodeURL (oc (ident st))
                               (State.Encrypt {| State.payload := p;
                                                 State.key := sessionSecret (ident st) |})
                               loginOptions) |} |}.
Proof.
  destruct (NewState_run (sessionSecret (ident st))
              {| ident := ident st; rand := rand st; trace := trace st;
                 resp := Http.fresh |}) as (p & rest & Hnew & Hlen).
  exists p, rest. split; [done|].
  unfold serve, LoginHandler, bind at 1, getIdent. cbn [ident].
  unfold bind at 1. rewrite Hnew. reflexivity.
Qed.

Lemma callback_keeps_wiring baseURI r st :
  same_wiring (ident st) (ident (final_state (serve (CallbackHandler baseURI) r st))).
Proof. destruct (callback_run baseURI r st); by repeat split. Qed.

(** X3: no handler and no run of [invalidToken] changes the session
    secret, the configuration or the channel of the identity, whether the
    run returns or blocks; [LoginHandler] leaves the cached token as it
    is; [LogoutHandler] and [CallbackHandler] read no random bytes. *)
Theorem handlers_keep_wiring baseURI r st :
  same_wiring (ident st) (ident (final_state (serve LoginHandler r st)))
  ∧ same_wiring (ident st) (ident (final_state (serve LogoutHandler r st)))
  ∧ same_wiring (ident st) (ident (final_state (serve (CallbackHandler baseURI) r st)))
  ∧ ident (final_state (invalidToken st)) = ident st
  ∧ token (ts (ident (final_state (serve LoginHandler r st)))) = token (ts (ident st))
  ∧ rand (final_state (serve LogoutHandler r st)) = rand st
  ∧ rand (final_state (serve (CallbackHandler baseURI) r st)) = rand st.
Proof.
  split; [|split; [|split; [|split; [|split; [|split]]]]].
  - destruct (LoginHandler_run r st) as (p & rest & _ & ->). by repeat split.
  - rewrite LogoutHandler_run.
    destruct (authC (ident st)) as [ch|]; [destruct (receiving ch)|]; by repeat split.
  - apply callback_keeps_wiring.
  - unfold invalidToken, bind, getIdent, send.
    destruct (authC (ident st)) as [ch|]; simpl; [|done].
    by destruct (receiving ch).
  - by destruct (LoginHandler_run r st) as (p & rest & _ & ->).
  - rewrite LogoutHandler_run.
    destruct (authC (ident st)) as [ch|]; [destruct (receiving ch)|]; done.
  - by destruct (callback_run baseURI r st).
Qed.

(** X4: after a callback the cached token is the one that was there, or
    the token that the exchange of this callback returned, and then this
    token is valid: a callback never caches an invalid token. *)
Theorem callback_caches_valid_only baseURI r st :
  token (ts (ident (final_state (serve (CallbackHandler baseURI) r st))))
  = token (ts (ident st))
  ∨ ∃ c tok,
      EvExchange c (inl tok) ∈ emitted st (serve (CallbackHandler baseURI) r st)
      ∧ Exchange (oc (ident st)) c = inl tok
      ∧ Valid tok = true
      ∧ token (ts (ident (final_state (serve (CallbackHandler baseURI) r st))))
        = Some tok.
Proof.
  destruct (callback_run baseURI r st);
    rewrite ?emitted_after, ?emitted_after_blocked; try (by left).
  - right. exists c, tok. split; [|done]. do 2 right. by left.
  - right. exists c, tok. split; [|done]. do 2 right. by left.
Qed.

(** X5: a callback that returns has set a [Location] exactly when its
    exchange returned a token; then the status is 302 and the location
    is the one of the base URI; otherwise the status is 200 and no header
    is set at all. *)
Theorem callback_redirect_iff baseURI r st st' :
  serve (CallbackHandler baseURI) r st = Done tt st' →
  (is_Some (Http.location (resp st'))
   ↔ ∃ c tok, EvExchange c (inl tok) ∈ emitted st (Done tt st'))
  ∧ (is_Some (Http.location (resp st')) →
     Http.sent_status (resp st') = Http.StatusFound
     ∧ Http.location (resp st') = Some [redirectLocation (Http.Path r) baseURI])
  ∧ (Http.location (resp st') = None →
     Http.sent_status (resp st') = Http.StatusOK
     ∧ Http.header (resp st') = ∅).
Proof.
  destruct (callback_run baseURI r st); intros [= <-];
    rewrite emitted_after.
  1-6: (split; [split; [by intros [? [=]]|]
               | by split; [intros [? [=]]|]]);
       intros (c' & tok' & Hin);
       repeat (apply elem_of_cons in Hin as [Hin|Hin]; [discriminate|]);
       by apply elem_of_nil in Hin.
  all: cbn [resp after]; rewrite Redirect_fresh_location, Redirect_fresh_status;
    (split; [split; [intros _; do 2 eexists; do 2 right; by left | by eauto]
            | by split]).
Qed.

(** X6: a callback blocks exactly when its exchange returned a valid
    token and the identity has no channel, or one without a subscriber;
    then the token is already in the cache, and nothing has been sent,
    the provider cache has not been reset and no response is written. *)
Theorem callback_blocks_exactly baseURI r st :
  (∀ st', serve (CallbackHandler baseURI) r st = Blocked st' →
     ∃ data s c tok,
       ParseQuery (Http.RawQuery r) = (data, None)
       ∧ data !! "error" = None
       ∧ data !! "state" = Some [s]
       ∧ State.Validate s (sessionSecret (ident st)) = None
       ∧ data !! "code" = Some [c]
       ∧ Exchange (oc (ident st)) c = inl tok
       ∧ Valid tok = true
       ∧ (∀ ch, authC (ident st) = Some ch → receiving ch = false)
       ∧ st' = after st [logRetrieved; EvValidate s None; EvExchange c (inl tok);
                         logSending; EvApply (Some tok)]
                 (set_token (Some tok) (ident st)) Http.fresh)
  ∧ (∀ data s c tok,
       ParseQuery (Http.RawQuery r) = (data, None) →
       data !! "error" = None →
       data !! "state" = Some [s] →
       State.Validate s (sessionSecret (ident st)) = None →
       data !! "code" = Some [c] →
       Exchange (oc (ident st)) c = inl tok →
       Valid tok = true →
       (∀ ch, authC (ident st) = Some ch → receiving ch = false) →
       serve (CallbackHandler baseURI) r st
       = Blocked (after st [logRetrieved; EvValidate s None; EvExchange c (inl tok);
                            logSending; EvApply (Some tok)]
                    (set_token (Some tok) (ident st)) Http.fresh)).
Proof.
  split.
  - intros st'. destruct (callback_run baseURI r st); intros [= <-].
    exists data, s, c, tok. by repeat split.
  - intros data s c tok Hq Herr Hs Hv Hc Hx Hvalid Hch.
    by_cases_of_run baseURI r st; try congruence; try reflexivity.
    all: match goal with
         | E : authC _ = Some ?ch, R : receiving ?ch = true |- _ =>
             rewrite (Hch _ E) in R; discriminate
         end.
Qed.

(** X7: [LogoutHandler] clears the cached token in every run, before it
    sends: also a run that blocks has cleared it; the run blocks exactly
    when the identity has no channel or one without a subscriber, and
    then nothing is written to the response. *)
Theorem logout_always_clears r st :
  token (ts (ident (final_state (serve LogoutHandler r st)))) = None
  ∧ (∃ evs, emitted st (serve LogoutHandler r st) = EvApply None :: evs
            ∧ Forall (λ e, e = EvSend (default 0 (authC (ident st))) false) evs)
  ∧ ((∃ st', serve LogoutHandler r st = Blocked st')
     ↔ ∀ ch, authC (ident st) = Some ch → receiving ch = false)
  ∧ (∀ st', serve LogoutHandler r st = Blocked st' → resp st' = Http.fresh).
Proof.
  rewrite LogoutHandler_run.
  destruct (authC (ident st)) as [ch|]; [destruct (receiving ch) eqn:Hr|];
    rewrite ?emitted_after, ?emitted_after_blocked.
  - split; [done|]. split; [eexists; split; [reflexivity|by repeat constructor]|].
    split; [|done]. split; [by intros [? ?]|].
    intros Hn. specialize (Hn ch eq_refl). congruence.
  - split; [done|]. split; [eexists; split; [reflexivity|by constructor]|].
    split; [|by intros ? [= <-]]. split; [by intros _ ? [= <-]|eauto].
  - split; [done|]. split; [eexists; split; [reflexivity|by constructor]|].
    split; [|by intros ? [= <-]]. split; [by intros _ ? [= ]|eauto].
Qed.

(** X8: a callback whose [state] parameter has no value or more than
    one is answered with the text [invalid state response:] and the
    printed query, and no state is validated, also when each of the
    values would validate. *)
Theorem callback_state_count baseURI r st data states :
  ParseQuery (Http.RawQuery r) = (data, None) →
  data !! "error" = None →
  data !! "state" = Some states →
  length states ≠ 1 →
  serve (CallbackHandler baseURI) r st
  = Done tt (after st [logRetrieved] (ident st)
               (Http.Write (Fmt.sprintln2 "invalid state response:" (Fmt.values data))
                  Http.fresh)).
Proof.
  intros Hq Herr Hs Hlen.
  by_cases_of_run baseURI r st; try congruence; try reflexivity;
    by (rewrite Hs in *; simplify_eq).
Qed.

(** X9: a callback with one valid state whose [code] parameter is
    missing, empty or repeated is answered with the text
    [invalid response:] and the printed query after the validation, and
    no exchange is made. *)
Theorem callback_code_count baseURI r st data s :
  ParseQuery (Http.RawQuery r) = (data, None) →
  data !! "error" = None →
  data !! "state" = Some [s] →
  State.Validate s (sessionSecret (ident st)) = None →
  (∀ cs, data !! "code" = Some cs → length cs ≠ 1) →
  serve (CallbackHandler baseURI) r st
  = Done tt (after st [logRetrieved; EvValidate s None] (ident st)
               (Http.Write (Fmt.sprintln2 "invalid response:" (Fmt.values data))
                  Http.fresh)).
Proof.
  intros Hq Herr Hs Hv Hlen.
  by_cases_of_run baseURI r st; try congruence; try reflexivity;
    by (exfalso; eapply Hlen; [eassumption|]).
Qed.

(** X12: the state that [LoginHandler] puts into the login URL passes
    the validation of [CallbackHandler] on every identity with the same
    session secret: a callback that parses, has no [error] parameter,
    this state and one code validates the state and goes on to the
    exchange of the code with the configuration of that identity. *)
Theorem login_state_accepted r st :
  ∃ st' tok,
    serve LoginHandler r st = Done tt st'
    ∧ Http.body (resp st')
      = loginBody (OAuth2.AuthCodeURL (oc (ident st)) tok loginOptions)
    ∧ ∀ baseURI r2 st2 data c,
        sessionSecret (ident st2) = sessionSecret (ident st) →
        ParseQuery (Http.RawQuery r2) = (data, None) →
        data !! "error" = None →
        data !! "state" = Some [tok] →
        data !! "code" = Some [c] →
        ∃ rest,
          emitted st2 (serve (CallbackHandler baseURI) r2 st2)
          = logRetrieved :: EvValidate tok None
              :: EvExchange c (Exchange (oc (ident st2)) c) :: rest.
Proof.
  destruct (LoginHandler_run r st) as (p & rest & Hlen & Hrun).
  eexists _, _. split; [exact Hrun|]. split; [reflexivity|].
  intros baseURI r2 st2 data c Hsec Hq Herr Hs Hc.
  assert (Hv : State.Validate
                 (State.Encrypt {| State.payload := p;
                                   State.key := sessionSecret (ident st) |})
                 (sessionSecret (ident st2)) = None).
  { rewrite Hsec. by apply (Validate_Encrypt {| State.payload := p;
                                              State.key := sessionSecret (ident st) |}). }
  by_cases_of_run baseURI r2 st2; try congruence;
    rewrite ?emitted_after, ?emitted_after_blocked;
    match goal with
    | E : Exchange _ _ = _ |- _ => rewrite E
    end; by eexists.
Qed.

(** X13: a callback that logs in, followed by a logout, delivers [true]
    and then [false] on the channel; the token of the exchange is cached
    in between and the cache is empty at the end. *)
Theorem login_then_logout baseURI r r' st data s c tok ch :
  ParseQuery (Http.RawQuery r) = (data, None) →
  data !! "error" = None →
  data !! "state" = Some [s] →
  State.Validate s (sessionSecret (ident st)) = None →
  data !! "code" = Some [c] →
  Exchange (oc (ident st)) c = inl tok →
  Valid tok = true →
  authC (ident st) = Some ch →
  receiving ch = true →
  ∃ st1 st2,
    serve (CallbackHandler baseURI) r st = Done tt st1
    ∧ serve LogoutHandler r' st1 = Done tt st2
    ∧ token (ts (ident st1)) = Some tok
    ∧ ident st2 = set_token None (ident st)
    ∧ notifications ch (emitted st (Done tt st2)) = [true; false].
Proof.
  intros Hq Herr Hs Hv Hc Hx Hvalid Hch Hrecv.
  by_cases_of_run baseURI r st; try congruence.
  eexists _, _. split; [reflexivity|].
  rewrite LogoutHandler_run. cbn [ident after authC set_token].
  rewrite Hch, Hrecv.
  split; [reflexivity|]. split; [reflexivity|]. split; [reflexivity|].
  unfold emitted, after; cbn [final_state trace].
  rewrite <- app_assoc, drop_app_length.
  unfold notifications; simpl. by rewrite Nat.eqb_refl.
Qed.

Lemma NewIdentity_config id secret options src v err evs :
  NewIdentity id secret options src = ((Some v, err), evs) →
  ∃ ep, NewProvider issuer = inl ep
        ∧ oc v = oc (built id secret ep [] None)
        ∧ authC v = None
        ∧ length (sessionSecret v) = 16.
Proof.
  unfold NewIdentity. destruct (NewProvider issuer) as [ep|e]; [|done].
  cbv zeta. intros Hnew. exists ep. split; [done|].
  destruct (decide (16 ≤ length src)) as [Hlen|Hlen].
  - rewrite construct_enough in Hnew by done. cbn in Hnew.
    injection Hnew as <- _ _. cbn. rewrite length_take. by repeat split; try lia.
  - rewrite construct_short in Hnew by (cbn; lia). cbn in Hnew.
    injection Hnew as <- _ _. cbn. rewrite length_app, length_replicate.
    by repeat split; try lia.
Qed.

(** X14: for an identity that [NewIdentity] has built and
    [SetCallbackParams] has given the redirect URL [uri], the login URL
    is the authorization URL of the discovered endpoint followed by the
    encoded parameters access_type=offline, client_id, prompt=login
    consent, redirect_uri=uri, response_type=code, the scope
    [offline_access mb:vehicle:mbdata:evstatus] and a state that
    validates against the secret of the identity, and no others. *)
Theorem login_parameters id secret options src v err evs uri c r st :
  NewIdentity id secret options src = ((Some v, err), evs) →
  ident st = v →
  uri ≠ EmptyString →
  ∃ ep st1 st2 tok,
    NewProvider issuer = inl ep
    ∧ SetCallbackParams uri c st = Done tt st1
    ∧ serve LoginHandler r st1 = Done tt st2
    ∧ State.Validate tok (sessionSecret v) = None
    ∧ Http.body (resp st2)
      = loginBody
          (OAuth2.AuthURL ep
           +:+ (if Str.has_char "?" (OAuth2.AuthURL ep) then "&" else "?")
           +:+ Url.Encode
                 (list_to_map
                    [("access_type", ["offline"]);
                     ("client_id", [id]);
                     ("prompt", ["login consent"]);
                     ("redirect_uri", [uri]);
                     ("response_type", ["code"]);
                     ("scope", ["offline_access mb:vehicle:mbdata:evstatus"]);
                     ("state", [tok])])).
Proof.
  intros Hnew Hv Huri.
  destruct (NewIdentity_config _ _ _ _ _ _ _ Hnew) as (ep & Hp & Hoc & Hch & Hlen).
  exists ep. eexists.
  destruct (LoginHandler_run r
              {| ident := {| ts := ts (ident st); sessionSecret := sessionSecret (ident st);
                             oc := OAuth2.set_RedirectURL uri (oc (ident st));
                             authC := c |};
                 rand := rand st; trace := trace st; resp := resp st |})
    as (p & rest & Hp_len & Hrun).
  eexists _, _. split; [done|]. split; [reflexivity|]. split; [exact Hrun|].
  cbn [ident sessionSecret oc resp Http.body] in *.
  split; [rewrite <- Hv; by apply (Validate_Encrypt
             {| State.payload := p; State.key := sessionSecret (ident st) |})|].
  f_equal. unfold OAuth2.AuthCodeURL.
  rewrite Hv, Hoc. cbn [OAuth2.set_RedirectURL built oc OAuth2.Endpoint_ OAuth2.AuthURL].
  f_equal. f_equal. f_equal.
  unfold OAuth2.authCodeValues, loginOptions, OAuth2.set_RedirectURL.
  cbn [OAuth2.RedirectURL OAuth2.Scopes OAuth2.ClientID fold_left OAuth2.setValue
       OAuth2.AccessTypeOffline ScopeOfflineAccess].
  destruct (String.eqb_spec uri EmptyString) as [|_]; [done|].
  destruct (String.eqb_spec (State.Encrypt {| State.payload := p;
                                              State.key := sessionSecret v |}) EmptyString)
    as [Hempty|_].
  { exfalso.
    exact (Encrypt_not_empty {| State.payload := p; State.key := sessionSecret v |}
             Hp_len Hempty). }

  reflexivity.
Qed.

(** X15: [SetCallbackParams] replaces the redirect URL and the channel
    and keeps the token source and the session secret; a second call
    overrides the first; the handlers read the channel when they run, so
    a logout after it sends [false] on the new channel, or blocks when
    the new channel is nil or has no subscriber. *)
Theorem SetCallbackParams_rewires uri c st :
  ∃ st1,
    SetCallbackParams uri c st = Done tt st1
    ∧ ts (ident st1) = ts (ident st)
    ∧ sessionSecret (ident st1) = sessionSecret (ident st)
    ∧ oc (ident st1) = OAuth2.set_RedirectURL uri (oc (ident st))
    ∧ emitted st (Done tt st1) = []
    ∧ resp st1 = resp st
    ∧ (∀ uri' c', SetCallbackParams uri' c' st1 = SetCallbackParams uri' c' st)
    ∧ (∀ r, (∃ st2, serve LogoutHandler r st1 = Done tt st2
                    ∧ ∃ ch, c = Some ch ∧ receiving ch = true
                            ∧ emitted st1 (Done tt st2) = [EvApply None; EvSend ch false])
            ∨ (∃ st2, serve LogoutHandler r st1 = Blocked st2)
              ∧ ∀ ch, c = Some ch → receiving ch = false).
Proof.
  eexists. split; [reflexivity|].
  do 5 (split; [try reflexivity; unfold emitted; simpl; by rewrite drop_all|]).
  split; [reflexivity|].
  intros r. rewrite LogoutHandler_run. cbn [ident authC].
  destruct c as [ch|]; [destruct (receiving ch) eqn:Hr|].
  - left. eexists. split; [reflexivity|]. exists ch. rewrite emitted_after. by repeat split.
  - right. split; [by eexists|]. by intros ? [= <-].
  - right. split; [by eexists|]. by intros ? [=].
Qed.

End Properties.

(** * Two runs

    The answers of a world are those of one run. A property of two runs
    takes a world for each, so that the provider, the clock behind [Valid]
    and the subscribers may answer the second run differently. *)

Section TwoRuns.
Context {scheme : State.Scheme}.
Variables w1 w2 : Env.

Ltac agree_answers :=
  repeat match goal with
         | A : ?x = _, B : ?x = _ |- _ => rewrite A in B; simplify_eq
         end;
  try match goal with
      | Hn : ∀ x, ?m !! ?k ≠ Some [x], E : ?m !! ?k = Some [_] |- _ =>
          by destruct (Hn _ E)
      | Hb : ∀ x, authC ?v = Some x → _, E : authC ?v = Some _ |- _ =>
          specialize (Hb _ E); congruence
      end;
  try congruence.

(** X10: a callback reads of the identity only the session secret, the
    configuration and the channel: in two runs in which the libraries,
    the provider, [Valid] and the subscribers answer alike, on two
    identities that agree on these three, it makes the same calls, writes
    the same response and blocks in the one exactly when it blocks in the
    other, whatever token is cached, whatever the random source holds and
    whatever is in the trace. *)
Theorem callback_reads_wiring_only baseURI r st1 st2 :
  answers_alike w1 w2 →
  same_wiring (ident st1) (ident st2) →
  emitted st2 (serve (CallbackHandler (world := w2) baseURI) r st2)
  = emitted st1 (serve (CallbackHandler (world := w1) baseURI) r st1)
  ∧ resp (final_state (serve (CallbackHandler (world := w2) baseURI) r st2))
    = resp (final_state (serve (CallbackHandler (world := w1) baseURI) r st1))
  ∧ ((∃ s, serve (CallbackHandler (world := w2) baseURI) r st2 = Blocked s)
     ↔ (∃ s, serve (CallbackHandler (world := w1) baseURI) r st1 = Blocked s)).
Proof.
  intros (Hq & Hl & Hx & Hv & Hr) (Hsec & Hoc & Hch).
  destruct (callback_run (world := w1) baseURI r st1);
    destruct (callback_run (world := w2) baseURI r st2);
    rewrite ?Hq, ?Hl, ?Hx, ?Hv, ?Hr, ?Hsec, ?Hoc, ?Hch in *;
    agree_answers;
    rewrite ?emitted_after, ?emitted_after_blocked;
    (split; [reflexivity|]); (split; [reflexivity|]);
    split; intros [s0 Hs0]; first [discriminate | by eexists].
Qed.

(** X11: the handler keeps no record of the states it has accepted: when
    a callback that reached the exchange is sent again, in a world whose
    provider may answer differently, the same state validates again and
    the exchange is called again with the same code; when the provider
    then rejects the code, the answer is 200 with [token error:] and the
    identity is left as the first run left it, with the token that run
    cached. *)
Theorem callback_state_not_used_up baseURI r st c res :
  @ParseQuery w2 (Http.RawQuery r) = @ParseQuery w1 (Http.RawQuery r) →
  EvExchange c res
  ∈ emitted st (serve (CallbackHandler (world := w1) baseURI) r st) →
  ∃ s,
    EvValidate s None
    ∈ emitted st (serve (CallbackHandler (world := w1) baseURI) r st)
    ∧ (∃ rest,
         emitted (final_state (serve (CallbackHandler (world := w1) baseURI) r st))
           (serve (CallbackHandler (world := w2) baseURI) r
              (final_state (serve (CallbackHandler (world := w1) baseURI) r st)))
         = logRetrieved :: EvValidate s None
             :: EvExchange c (@Exchange w2 (oc (ident st)) c) :: rest)
    ∧ (∀ e, @Exchange w2 (oc (ident st)) c = inr e →
         serve (CallbackHandler (world := w2) baseURI) r
           (final_state (serve (CallbackHandler (world := w1) baseURI) r st))
         = Done tt
             (after (final_state (serve (CallbackHandler (world := w1) baseURI) r st))
                [logRetrieved; EvValidate s None; EvExchange c (inr e)]
                (ident (final_state (serve (CallbackHandler (world := w1) baseURI) r st)))
                (Http.Write (Fmt.sprintln2 "token error:" e) Http.fresh))).
Proof.
  intros Hq.
  destruct (callback_run (world := w1) baseURI r st) as
    [data e Hq1|data errs Hq1 Herr|data Hq1 Herr Hs|data s k Hq1 Herr Hs Hv
    |data s Hq1 Herr Hs Hv Hc|data s c0 e Hq1 Herr Hs Hv Hc Hx
    |data s c0 tok Hq1 Herr Hs Hv Hc Hx Hvalid
    |data s c0 tok Hq1 Herr Hs Hv Hc Hx Hvalid Hch
    |data s c0 tok ch Hq1 Herr Hs Hv Hc Hx Hvalid Hch Hrecv];
    rewrite ?emitted_after, ?emitted_after_blocked; intros Hin;
    try (exfalso;
         repeat (apply elem_of_cons in Hin as [Hin|Hin]; [discriminate|]);
         by apply elem_of_nil in Hin).
  all: assert (c0 = c) as ->
      by (repeat (apply elem_of_cons in Hin as [Hin|Hin];
                  [first [discriminate | by injection Hin]|]);
          by apply elem_of_nil in Hin).
  all: exists s; (split; [by right; left|]).
  all: cbn [final_state].
  all: match goal with
       | |- context [serve _ _ ?s1] =>
           destruct (callback_run (world := w2) baseURI r s1);
           cbn [ident after sessionSecret oc authC set_token] in *;
           rewrite ?Hq1 in *; agree_answers
       end.
  all: rewrite ?emitted_after, ?emitted_after_blocked.
  all: split; [match goal with
                | E : @Exchange w2 _ _ = _ |- _ => rewrite E
                end; by eexists|].
  all: intros e' He'; agree_answers; reflexivity.
Qed.

End TwoRuns.

(** * The properties on the concrete world *)

Lemma callback_login_witness :
  ∃ st', serve (CallbackHandler Demo.base) Demo.loginRequest (Demo.state (Some 1) None)
         = Done tt st'
    ∧ token (ts (ident st')) = Some Demo.goodToken
    ∧ emitted (Demo.state (Some 1) None) (Done tt st')
      = [logRetrieved; EvValidate Demo.ownState None;
         EvExchange "good" (inl Demo.goodToken); logSending;
         EvApply (Some Demo.goodToken); EvSend 1 true; EvResetCached]
    ∧ Http.sent_status (resp st') = Http.StatusFound
    ∧ Http.location (resp st') = Some [Demo.base].
Proof.
  refine (callback_login Demo.base Demo.loginRequest (Demo.state (Some 1) None)
            (Url.ParseQuery (Http.RawQuery Demo.loginRequest)).1
            Demo.ownState "good" Demo.goodToken 1 _ _ _ _ _ _ _ _ _);
    vm_compute; reflexivity.
Defined.

(** C1 as stated fails on requests that carry one valid state and one code
    whose exchange returns a valid token: with an [error] parameter in
    front, and with a parameter that does not parse, the answer is a 200
    with a diagnostic text and nothing is applied or sent; on an identity
    without a channel, and on one whose channel has no subscriber, the run
    stops at the send, after the token has been applied and before any
    response. *)
Lemma callback_login_counterexample :
  ((Url.ParseQuery (Http.RawQuery Demo.errorRequest)).1 !! "state" = Some [Demo.ownState]
   ∧ (Url.ParseQuery (Http.RawQuery Demo.errorRequest)).1 !! "code" = Some ["good"]
   ∧ (Url.ParseQuery (Http.RawQuery Demo.brokenRequest)).1 !! "state" = Some [Demo.ownState]
   ∧ (Url.ParseQuery (Http.RawQuery Demo.brokenRequest)).1 !! "code" = Some ["good"]
   ∧ (Url.ParseQuery (Http.RawQuery Demo.loginRequest)).1 !! "state" = Some [Demo.ownState]
   ∧ (Url.ParseQuery (Http.RawQuery Demo.loginRequest)).1 !! "code" = Some ["good"]
   ∧ State.Validate Demo.ownState Demo.secret1 = None
   ∧ Exchange Demo.config "good" = inl Demo.goodToken
   ∧ Valid Demo.goodToken = true)
  ∧ (∃ st', serve (CallbackHandler Demo.base) Demo.errorRequest (Demo.state (Some 1) None)
            = Done tt st'
       ∧ Http.sent_status (resp st') = 200
       ∧ Http.location (resp st') = None
       ∧ token (ts (ident st')) = None
       ∧ trace st' = [logRetrieved])
  ∧ (∃ st', serve (CallbackHandler Demo.base) Demo.brokenRequest (Demo.state (Some 1) None)
            = Done tt st'
       ∧ Http.sent_status (resp st') = 200
       ∧ Http.location (resp st') = None
       ∧ token (ts (ident st')) = None
       ∧ trace st' = [logRetrieved])
  ∧ (∃ st', serve (CallbackHandler Demo.base) Demo.loginRequest (Demo.state None None)
            = Blocked st'
       ∧ resp st' = Http.fresh
       ∧ Forall (λ e, notified e = false) (trace st'))
  ∧ (∃ st', serve (CallbackHandler Demo.base) Demo.loginRequest (Demo.state (Some 2) None)
            = Blocked st'
       ∧ resp st' = Http.fresh
       ∧ Forall (λ e, notified e = false) (trace st')).
Proof.
  split; [vm_compute; repeat split; reflexivity|].
  split; [eexists; split; [vm_compute; reflexivity|]; vm_compute; by repeat split|].
  split; [eexists; split; [vm_compute; reflexivity|]; vm_compute; by repeat split|].
  split; (eexists; split; [vm_compute; reflexivity|]);
    (split; [reflexivity|]); simpl; by repeat constructor.
Qed.

Lemma callback_failure_witness :
  ∃ st', serve (CallbackHandler Demo.base) Demo.rejectedRequest (Demo.state (Some 1) None)
         = Done tt st'
    ∧ Http.sent_status (resp st') = Http.StatusOK
    ∧ Http.location (resp st') = None
    ∧ diagnostic (Url.ParseQuery (Http.RawQuery Demo.rejectedRequest)).1
        (Http.body (resp st'))
    ∧ Http.body (resp st') ≠ EmptyString
    ∧ ident st' = ident (Demo.state (Some 1) None)
    ∧ Forall (λ e, is_transition e = false)
        (emitted (Demo.state (Some 1) None) (Done tt st')).
Proof.
  apply (callback_failure Demo.base Demo.rejectedRequest (Demo.state (Some 1) None)
           (Url.ParseQuery (Http.RawQuery Demo.rejectedRequest)).1 None).
  - vm_compute; reflexivity.
  - apply (ExchangeError _ _ _ "used" "oauth2: cannot fetch token: 400 Bad Request");
      vm_compute; reflexivity.
Defined.

Lemma demo_mac_separates :
  ∀ k1 k2 p : list byte, State.mac k1 p = State.mac k2 p → k1 = k2.
Proof. intros k1 k2 p. apply app_inv_tail. Qed.



Lemma provider_error_reported_witness :
  ∃ st', serve (CallbackHandler Demo.base) Demo.cancelledRequest
           (Demo.state (Some 1) None) = Done tt st'
    ∧ Http.sent_status (resp st') = Http.StatusOK
    ∧ Http.location (resp st') = None
    ∧ (∀ v, v ∈ ["access_denied"] → Str.contains (Http.body (resp st')) v)
    ∧ (∀ v, v ∈ default [] ((Url.ParseQuery (Http.RawQuery Demo.cancelledRequest)).1
                              !! "error_description") →
            Str.contains (Http.body (resp st')) v)
    ∧ (@None error = None →
       Http.body (resp st')
       = "error: " +:+ Fmt.strings ["access_denied"] +:+ ": "
         +:+ Fmt.strings (default [] ((Url.ParseQuery (Http.RawQuery Demo.cancelledRequest)).1
                                        !! "error_description")) +:+ newline)
    ∧ ident st' = ident (Demo.state (Some 1) None)
    ∧ emitted (Demo.state (Some 1) None) (Done tt st') = [logRetrieved].
Proof.
  refine (provider_error_reported Demo.base Demo.cancelledRequest
            (Demo.state (Some 1) None)
            (Url.ParseQuery (Http.RawQuery Demo.cancelledRequest)).1
            None ["access_denied"] _ _);
    vm_compute; reflexivity.
Defined.

Lemma callback_order_witness :
  precedes validated exchange_call
    (emitted (Demo.state (Some 1) None)
       (serve (CallbackHandler Demo.base) Demo.loginRequest (Demo.state (Some 1) None)))
  ∧ (EvValidate Demo.foreignState (Some State.TamperedOrForged)
     ∈ emitted (Demo.state (Some 1) None)
         (serve (CallbackHandler Demo.base) Demo.foreignRequest (Demo.state (Some 1) None))
     ∧ Forall (λ e, exchange_call e = false ∧ applied e = false ∧ notified e = false)
         (emitted (Demo.state (Some 1) None)
            (serve (CallbackHandler Demo.base) Demo.foreignRequest
               (Demo.state (Some 1) None)))).
Proof.
  split.
  - exact (proj1 (callback_order Demo.base Demo.loginRequest (Demo.state (Some 1) None))).
  - assert (Hin : EvValidate Demo.foreignState (Some State.TamperedOrForged)
                  ∈ emitted (Demo.state (Some 1) None)
                      (serve (CallbackHandler Demo.base) Demo.foreignRequest
                         (Demo.state (Some 1) None)))
      by (vm_compute; repeat constructor).
    split; [exact Hin|].
    destruct (callback_order Demo.base Demo.foreignRequest (Demo.state (Some 1) None))
      as (_ & _ & _ & _ & _ & _ & Hstop & _).
    exact (Hstop _ _ Hin).
Defined.

Lemma logout_clears_witness :
  ∃ st', serve LogoutHandler (Demo.get EmptyString)
           (Demo.state (Some 1) (Some Demo.goodToken)) = Done tt st'
    ∧ ident st' = set_token None (Demo.identity (Some 1) (Some Demo.goodToken))
    ∧ emitted (Demo.state (Some 1) (Some Demo.goodToken)) (Done tt st')
      = [EvApply None; EvSend 1 false]
    ∧ resp st' = {| Http.status := Some Http.StatusOK; Http.header := ∅;
                   Http.body := EmptyString |}
    ∧ ∀ cb,
        Token cb st'
        = (cb;; ret (inr "oauth2: token expired and refresh token is not set"))%go
            (after st' [EvRefresh None
                          (inr "oauth2: token expired and refresh token is not set")]
               (set_token None (Demo.identity (Some 1) (Some Demo.goodToken)))
               (resp st')).
Proof.
  refine (logout_clears (Demo.get EmptyString)
            (Demo.state (Some 1) (Some Demo.goodToken)) 1 _ _); reflexivity.
Defined.

(** C7 as stated fails on an identity without a channel, and on one whose
    channel has no subscriber: the token is cleared, the run stops at the
    send, nothing is sent and no response is written. *)
Lemma logout_clears_counterexample :
  (∃ st', serve LogoutHandler (Demo.get EmptyString)
            (Demo.state None (Some Demo.goodToken)) = Blocked st'
     ∧ token (ts (ident st')) = None
     ∧ trace st' = [EvApply None]
     ∧ resp st' = Http.fresh)
  ∧ (∃ st', serve LogoutHandler (Demo.get EmptyString)
              (Demo.state (Some 2) (Some Demo.goodToken)) = Blocked st'
       ∧ token (ts (ident st')) = None
       ∧ trace st' = [EvApply None]
       ∧ resp st' = Http.fresh).
Proof.
  split; (eexists; split; [vm_compute; reflexivity|]); by repeat split.
Qed.

Lemma NewIdentity_provider_witness :
  @NewIdentity Demo.offline "evcc" "s3cret" [WithToken (Some Demo.goodToken)]
    Demo.secret1
  = ((None, Some ("failed to initialize OIDC provider: "
                  +:+ "Get https://id.mercedes-benz.com: dial tcp: no such host")), []).
Proof.
  apply (proj1 (@NewIdentity_provider Demo.offline "evcc" "s3cret"
                  [WithToken (Some Demo.goodToken)] Demo.secret1)).
  reflexivity.
Defined.

Lemma callback_invalid_token_witness :
  ∃ st', serve (CallbackHandler Demo.base) Demo.lateRequest (Demo.state (Some 1) None)
         = Done tt st'
    ∧ Http.sent_status (resp st') = Http.StatusFound
    ∧ Http.location (resp st')
      = Some [redirectLocation (Http.Path Demo.lateRequest) Demo.base]
    ∧ ident st' = ident (Demo.state (Some 1) None)
    ∧ Forall (λ e, is_transition e = false)
        (emitted (Demo.state (Some 1) None) (Done tt st')).
Proof.
  apply (callback_invalid_token Demo.base Demo.lateRequest (Demo.state (Some 1) None)
           "late" Demo.staleToken).
  - vm_compute. repeat constructor.
  - reflexivity.
Defined.

Lemma invalidToken_guard_witness :
  invalidToken (Demo.state None (Some Demo.staleToken))
  = Done tt (Demo.state None (Some Demo.staleToken))
  ∧ Token invalidToken (Demo.state None (Some Demo.staleToken))
    = Done (inr "oauth2: token expired and refresh token is not set")
        (after (Demo.state None (Some Demo.staleToken))
           [EvRefresh (Some Demo.staleToken)
              (inr "oauth2: token expired and refresh token is not set")]
           (set_token None (Demo.identity None (Some Demo.staleToken)))
           Http.fresh).
Proof.
  destruct (invalidToken_guard (Demo.state None (Some Demo.staleToken)))
    as (Hnil & _ & _ & _ & _ & Hrefresh).
  split.
  - apply Hnil. reflexivity.
  - apply (Hrefresh eq_refl).
    + intros t [= <-]. reflexivity.
    + reflexivity.
Defined.

(** * Runs of the concrete world *)

Example cancelled_body :
  Http.body (resp (final_state
    (serve (CallbackHandler Demo.base) Demo.cancelledRequest (Demo.state (Some 1) None))))
  = "error: [access_denied]: [user cancelled]" +:+ newline.
Proof. vm_compute. reflexivity. Qed.

Example broken_body :
  Http.body (resp (final_state
    (serve (CallbackHandler Demo.base) Demo.brokenRequest (Demo.state (Some 1) None))))
  = "invalid response: map[code:[good] state:[aabb0102030405060708090a0b0c0d0e0f10aabb]]"
    +:+ newline.
Proof. vm_compute. reflexivity. Qed.

Example login_uri :
  OAuth2.AuthCodeURL Demo.config Demo.ownState loginOptions
  = "https://id.mercedes-benz.com/as/authorization.oauth2?access_type=offline&client_id=evcc&prompt=login+consent&redirect_uri=http%3A%2F%2Flocalhost%3A7070%2Fcb&response_type=code&scope=offline_access+mb%3Avehicle%3Ambdata%3Aevstatus&state=aabb0102030405060708090a0b0c0d0e0f10aabb".
Proof. vm_compute. reflexivity. Qed.

(** The query of the login URI, parsed back, carries the state that was
    minted, and the state validates. *)
Example login_state_round_trip :
  (Url.ParseQuery
     (Url.Encode (OAuth2.authCodeValues Demo.config Demo.ownState loginOptions))).1
  !! "state" = Some [Demo.ownState]
  ∧ State.Validate Demo.ownState Demo.secret1 = None
  ∧ State.Validate Demo.ownState Demo.secret2 = Some State.TamperedOrForged
  ∧ State.Validate "aabb01" Demo.secret1 = Some State.TamperedOrForged
  ∧ State.Validate "not-hex" Demo.secret1 = Some State.Malformed.
Proof. vm_compute. by repeat split. Qed.

(** With a random source that runs dry, [NewIdentity] returns the identity
    together with the error, and skips the options. *)
Example NewIdentity_short_entropy :
  (NewIdentity "evcc" "s3cret" [WithToken (Some Demo.goodToken)] [x01; x02]).1.2
  = Some "unexpected EOF"
  ∧ (NewIdentity "evcc" "s3cret" [WithToken (Some Demo.goodToken)] [x01; x02]).2
    = [EvApply None].
Proof. vm_compute. by split. Qed.

(** * The further properties on the concrete world *)

Lemma NewIdentity_success_witness :
  NewIdentity "evcc" "s3cret"
    [WithToken (Some Demo.staleToken); WithToken (Some Demo.goodToken)] Demo.entropy
  = ((Some (built "evcc" "s3cret" Demo.endpoint Demo.secret1 (Some Demo.goodToken)),
      None),
     [EvApply None; EvApply (Some Demo.staleToken); EvApply (Some Demo.goodToken)]).
Proof.
  assert (Hlen : 16 ≤ length Demo.entropy) by (vm_compute; lia).
  exact (NewIdentity_success "evcc" "s3cret"
           [WithToken (Some Demo.staleToken); WithToken (Some Demo.goodToken)]
           Demo.entropy Demo.endpoint eq_refl Hlen).
Defined.

Lemma NewIdentity_short_random_witness :
  NewIdentity "evcc" "s3cret" [WithToken (Some Demo.goodToken)] [x01; x02]
  = ((Some (built "evcc" "s3cret" Demo.endpoint
              ([x01; x02] ++ replicate 14 x00) None),
      Some "unexpected EOF"),
     [EvApply None]).
Proof.
  assert (Hlen : length [x01; x02] < 16) by (vm_compute; lia).
  exact (NewIdentity_short_random "evcc" "s3cret" [WithToken (Some Demo.goodToken)]
           [x01; x02] Demo.endpoint eq_refl Hlen).
Defined.

Lemma callback_redirect_iff_witness :
  (is_Some (Http.location (resp (final_state
      (serve (CallbackHandler Demo.base) Demo.lateRequest (Demo.state (Some 1) None)))))
   ↔ ∃ c tok, EvExchange c (inl tok)
               ∈ emitted (Demo.state (Some 1) None)
                   (Done tt (final_state
                      (serve (CallbackHandler Demo.base) Demo.lateRequest
                         (Demo.state (Some 1) None)))))
  ∧ Http.header (resp (final_state
      (serve (CallbackHandler Demo.base) Demo.rejectedRequest
         (Demo.state (Some 1) None)))) = ∅.
Proof.
  split.
  - refine (proj1 (callback_redirect_iff Demo.base Demo.lateRequest
                     (Demo.state (Some 1) None) _ _)).
    vm_compute; reflexivity.
  - refine (proj2 (proj2 (proj2 (callback_redirect_iff Demo.base Demo.rejectedRequest
                     (Demo.state (Some 1) None) _ _)) _)).
    + vm_compute; reflexivity.
    + vm_compute; reflexivity.
Defined.

Lemma callback_blocks_exactly_witness :
  serve (CallbackHandler Demo.base) Demo.loginRequest (Demo.state (Some 2) None)
  = Blocked (after (Demo.state (Some 2) None)
               [logRetrieved; EvValidate Demo.ownState None;
                EvExchange "good" (inl Demo.goodToken); logSending;
                EvApply (Some Demo.goodToken)]
               (set_token (Some Demo.goodToken) (Demo.identity (Some 2) None))
               Http.fresh).
Proof.
  refine (proj2 (callback_blocks_exactly Demo.base Demo.loginRequest
                   (Demo.state (Some 2) None))
            (Url.ParseQuery (Http.RawQuery Demo.loginRequest)).1
            Demo.ownState "good" Demo.goodToken _ _ _ _ _ _ _ _);
    try (vm_compute; reflexivity).
  intros ch [= <-]. reflexivity.
Defined.

Lemma callback_state_count_witness :
  State.Validate Demo.ownState Demo.secret1 = None
  ∧ serve (CallbackHandler Demo.base) Demo.twoStatesRequest (Demo.state (Some 1) None)
    = Done tt (after (Demo.state (Some 1) None) [logRetrieved]
                 (Demo.identity (Some 1) None)
                 (Http.Write
                    (Fmt.sprintln2 "invalid state response:"
                       (Fmt.values (Url.ParseQuery
                                      (Http.RawQuery Demo.twoStatesRequest)).1))
                    Http.fresh)).
Proof.
  split; [vm_compute; reflexivity|].
  refine (callback_state_count Demo.base Demo.twoStatesRequest (Demo.state (Some 1) None)
            (Url.ParseQuery (Http.RawQuery Demo.twoStatesRequest)).1
            [Demo.ownState; Demo.ownState] _ _ _ _);
    try (vm_compute; reflexivity).
  discriminate.
Defined.

Lemma callback_code_count_witness :
  serve (CallbackHandler Demo.base) Demo.twoCodesRequest (Demo.state (Some 1) None)
  = Done tt (after (Demo.state (Some 1) None)
               [logRetrieved; EvValidate Demo.ownState None]
               (Demo.identity (Some 1) None)
               (Http.Write
                  (Fmt.sprintln2 "invalid response:"
                     (Fmt.values (Url.ParseQuery
                                    (Http.RawQuery Demo.twoCodesRequest)).1))
                  Http.fresh)).
Proof.
  refine (callback_code_count Demo.base Demo.twoCodesRequest (Demo.state (Some 1) None)
            (Url.ParseQuery (Http.RawQuery Demo.twoCodesRequest)).1
            Demo.ownState _ _ _ _ _);
    try (vm_compute; reflexivity).
  intros cs Hcs.
  assert (Hcodes : (Url.ParseQuery (Http.RawQuery Demo.twoCodesRequest)).1 !! "code"
                   = Some ["good"; "good"]) by (vm_compute; reflexivity).
  rewrite Hcodes in Hcs. injection Hcs as <-. discriminate.
Defined.

Lemma login_then_logout_witness :
  ∃ st1 st2,
    serve (CallbackHandler Demo.base) Demo.loginRequest (Demo.state (Some 1) None)
    = Done tt st1
    ∧ serve LogoutHandler (Demo.get EmptyString) st1 = Done tt st2
    ∧ token (ts (ident st1)) = Some Demo.goodToken
    ∧ ident st2 = set_token None (Demo.identity (Some 1) None)
    ∧ notifications 1 (emitted (Demo.state (Some 1) None) (Done tt st2)) = [true; false].
Proof.
  refine (login_then_logout Demo.base Demo.loginRequest (Demo.get EmptyString)
            (Demo.state (Some 1) None)
            (Url.ParseQuery (Http.RawQuery Demo.loginRequest)).1
            Demo.ownState "good" Demo.goodToken 1 _ _ _ _ _ _ _ _ _);
    vm_compute; reflexivity.
Defined.

Lemma login_parameters_witness :
  ∃ ep st1 st2 tok,
    NewProvider issuer = inl ep
    ∧ SetCallbackParams "http://localhost:7070/cb" (Some 1)
        {| ident := built "evcc" "s3cret" Demo.endpoint Demo.secret1 None;
           rand := [xaa; xbb; xcc; xdd]; trace := []; resp := Http.fresh |}
      = Done tt st1
    ∧ serve LoginHandler (Demo.get EmptyString) st1 = Done tt st2
    ∧ State.Validate tok Demo.secret1 = None
    ∧ Http.body (resp st2)
      = loginBody
          (OAuth2.AuthURL ep
           +:+ (if Str.has_char "?" (OAuth2.AuthURL ep) then "&" else "?")
           +:+ Url.Encode
                 (list_to_map
                    [("access_type", ["offline"]);
                     ("client_id", ["evcc"]);
                     ("prompt", ["login consent"]);
                     ("redirect_uri", ["http://localhost:7070/cb"]);
                     ("response_type", ["code"]);
                     ("scope", ["offline_access mb:vehicle:mbdata:evstatus"]);
                     ("state", [tok])])).
Proof.
  refine (login_parameters "evcc" "s3cret" [] Demo.secret1
            (built "evcc" "s3cret" Demo.endpoint Demo.secret1 None) None [EvApply None]
            "http://localhost:7070/cb" (Some 1) (Demo.get EmptyString)
            {| ident := built "evcc" "s3cret" Demo.endpoint Demo.secret1 None;
               rand := [xaa; xbb; xcc; xdd]; trace := []; resp := Http.fresh |}
            _ _ _).
  - vm_compute; reflexivity.
  - reflexivity.
  - discriminate.
Defined.

Lemma callback_reads_wiring_only_witness :
  emitted (Demo.busyState (Some 1))
    (serve (CallbackHandler Demo.base) Demo.loginRequest (Demo.busyState (Some 1)))
  = emitted (Demo.state (Some 1) None)
      (serve (CallbackHandler Demo.base) Demo.loginRequest (Demo.state (Some 1) None))
  ∧ resp (final_state
      (serve (CallbackHandler Demo.base) Demo.loginRequest (Demo.busyState (Some 1))))
    = resp (final_state
        (serve (CallbackHandler Demo.base) Demo.loginRequest (Demo.state (Some 1) None)))
  ∧ ((∃ s, serve (CallbackHandler Demo.base) Demo.loginRequest (Demo.busyState (Some 1))
           = Blocked s)
     ↔ (∃ s, serve (CallbackHandler Demo.base) Demo.loginRequest
               (Demo.state (Some 1) None) = Blocked s)).
Proof.
  refine (callback_reads_wiring_only Demo.env Demo.env Demo.base Demo.loginRequest
            (Demo.state (Some 1) None) (Demo.busyState (Some 1)) _ _);
    by repeat split.
Defined.

Lemma callback_state_not_used_up_witness :
  ∃ st'',
    serve (CallbackHandler (world := Demo.later) Demo.base) Demo.loginRequest
      (final_state (serve (CallbackHandler Demo.base) Demo.loginRequest
                      (Demo.state (Some 1) None)))
    = Done tt st''
    ∧ Http.sent_status (resp st'') = 200
    ∧ Http.body (resp st'')
      = "token error: oauth2: cannot fetch token: 400 Bad Request" +:+ newline
    ∧ token (ts (ident st'')) = Some Demo.goodToken
    ∧ notifications 1 (trace st'') = [true].
Proof.
  destruct (callback_state_not_used_up Demo.env Demo.later Demo.base Demo.loginRequest
              (Demo.state (Some 1) None) "good" (inl Demo.goodToken))
    as (s & _ & _ & Hrejected).
  - reflexivity.
  - vm_compute. do 2 right. left.
  - eexists. split; [exact (Hrejected _ eq_refl)|].
    vm_compute. by repeat split.
Defined.

Example login_body_text :
  Http.body (resp (final_state
    (serve LoginHandler (Demo.get EmptyString) (Demo.state (Some 1) None))))
  = String "{" (String "034" ("loginUri" +:+ String "034" (String ":" (String "034"
      ("https://id.mercedes-benz.com/as/authorization.oauth2?access_type=offline\u0026client_id=evcc\u0026prompt=login+consent\u0026redirect_uri=http%3A%2F%2Flocalhost%3A7070%2Fcb\u0026response_type=code\u0026scope=offline_access+mb%3Avehicle%3Ambdata%3Aevstatus\u0026state=aabb0102030405060708090a0b0c0d0e0f10aabb"
       +:+ String "034" "}"))))).
Proof. vm_compute. reflexivity. Qed.
